(** * Appointments-Management-API: the scheduling engine of [index.js]

    A shallow embedding of the Express handlers of [index.js] and of the
    helpers they call, over an explicit model of the request values
    (JSON) and of the two tables the handlers query.

    - A request value is a [jsval]: what [express.json()] can hand to a
      handler, plus [Undefined] for an absent property and the Date
      objects the driver makes when it reads a row.
    - The storage layer is a pair of tables (lists of rows) with the two
      [AUTO_INCREMENT] counters and the server's clock. Every [pool.query]
      of the source is one step of the monad [M]: it may be rejected by
      the storage layer (the [faults] script of the world decides, and
      carries the error message), refused by the server on its own account
      (a statement it cannot execute, the foreign key of the appointment
      table), or it is answered relationally from the tables. A [DATE]
      cell is read back as a Date object and a [TIME] cell as [HH:MM:SS]
      text, as the driver does by default.
    - A handler returns what it sent ([Sent status body]); a rejection that
      no [catch] of the source intercepts leaves the handler as an error
      ([inl]), i.e. the handler itself answers nothing. *)

From Stdlib Require Import ZArith List String Ascii Bool Lia DecimalString.
From Stdlib Require Import Sorted Permutation.
Import ListNotations.
Open Scope string_scope.
Open Scope Z_scope.
Set Warnings "-register-all,-notation-for-abbreviation".

(* ================================================================== *)
(** ** JavaScript values *)

Module JS.

(** Values a handler holds: those a JSON body can carry, and the Date
    object the driver makes for a [DATE] or [TIMESTAMP] cell ([DateObj],
    carrying the cell it was made from; no request carries one). A number
    is either integer valued ([Num]) or a decimal fraction [whole.frac]
    that is not an integer ([Frac]); a string is a sequence of 8-bit
    characters; an object lists its own properties. *)
Inductive jsval : Type :=
| Undefined
| Null
| Bool (b : bool)
| Num (z : Z)
| Frac (neg : bool) (whole frac : Decimal.uint)
| Str (s : string)
| Arr (l : list jsval)
| Obj (fields : list (string * jsval))
| DateObj (cell : string).

(** Errors a handler can meet: a rejected storage call (with the
    driver's message) or a [TypeError] raised by the language. *)
Inductive error : Type :=
| DbError (msg : string)
| TypeError (msg : string).

Definition err_message (e : error) : string :=
  match e with DbError m => m | TypeError m => m end.

(** [ToBoolean]: the falsy values are undefined, null, false, 0 and the
    empty string. *)
Definition truthy (v : jsval) : bool :=
  match v with
  | Undefined | Null => false
  | Bool b => b
  | Num z => negb (z =? 0)
  | Frac _ _ _ => true
  | Str s => negb (String.eqb s EmptyString)
  | Arr _ | Obj _ | DateObj _ => true
  end.

(** [typeof v === 'string'] *)
Definition is_string (v : jsval) : bool :=
  match v with Str _ => true | _ => false end.

(** [Number.isInteger(v)] *)
Definition Number_isInteger (v : jsval) : bool :=
  match v with Num _ => true | _ => false end.

(** [a === b] where [b] is a string primitive: equal only to the same
    string. *)
Definition strict_eq_str (a : jsval) (b : string) : bool :=
  match a with Str s => String.eqb s b | _ => false end.

(** [a === b] where [b] is the Date object of the row a handler has just
    read: objects are equal by identity, so only that very object is
    equal to it, never a string or any other value of the request. The
    one Date a handler holds besides is that same object. *)
Definition strict_eq_date (a : jsval) (cell : string) : bool :=
  match a with DateObj c => String.eqb c cell | _ => false end.

Fixpoint has_key (k : string) (fs : list (string * jsval)) : bool :=
  match fs with
  | [] => false
  | (k', _) :: fs' => String.eqb k k' || has_key k fs'
  end.

(** Property read [o.k]; a missing property reads [Undefined], as does
    any of the property names used here on an array. *)
Fixpoint lookup (k : string) (fs : list (string * jsval)) : jsval :=
  match fs with
  | [] => Undefined
  | (k', v) :: fs' => if String.eqb k k' then v else lookup k fs'
  end.

Definition get (k : string) (o : jsval) : jsval :=
  match o with Obj fs => lookup k fs | _ => Undefined end.

Definition render_Z (z : Z) : string := NilZero.string_of_int (Z.to_int z).

Definition render_frac (neg : bool) (whole frac : Decimal.uint) : string :=
  (if neg then "-" else EmptyString) ++ NilZero.string_of_uint whole ++ "."
    ++ NilZero.string_of_uint frac.

Definition sep_join (first : bool) (acc piece : string) : string :=
  if first then piece else acc ++ "," ++ piece.

(** The text of a Date ([Date.prototype.toString]) spells the weekday,
    the month and the zone of the process in letters, which the model
    does not compute: it renders a Date as its cell between letters, so
    that, like the real text, it starts with a letter. No handler
    converts a Date to text. *)
Definition date_text (cell : string) : string := "Date(" ++ cell ++ ")".

(** [ToString]. An array is joined with commas, undefined and null
    elements contributing the empty string; an object without an own
    [toString] is ["[object Object]"], and one with an own [toString]
    (never callable in JSON) cannot be converted: TypeError. *)
Fixpoint ToString (v : jsval) : error + string :=
  match v with
  | Undefined => inr "undefined"
  | Null => inr "null"
  | Bool true => inr "true"
  | Bool false => inr "false"
  | Num z => inr (render_Z z)
  | Frac n w f => inr (render_frac n w f)
  | Str s => inr s
  | Arr l =>
      (fix join (first : bool) (acc : string) (l : list jsval) : error + string :=
         match l with
         | [] => inr acc
         | x :: l' =>
             match x with
             | Undefined | Null => join false (sep_join first acc EmptyString) l'
             | _ =>
                 match ToString x with
                 | inl e => inl e
                 | inr s => join false (sep_join first acc s) l'
                 end
             end
         end) true EmptyString l
  | Obj fs =>
      if has_key "toString" fs
      then inl (TypeError "Cannot convert object to primitive value")
      else inr "[object Object]"
  | DateObj c => inr (date_text c)
  end.

(** White space removed by [String.prototype.trim], among the 8-bit
    characters. *)
Definition is_space (c : ascii) : bool :=
  let n := nat_of_ascii c in
  ((9 <=? n) && (n <=? 13))%nat || (n =? 32)%nat || (n =? 160)%nat.

Fixpoint trim_start (s : string) : string :=
  match s with
  | String c s' => if is_space c then trim_start s' else s
  | EmptyString => EmptyString
  end.

Fixpoint trim_end (s : string) : string :=
  match s with
  | EmptyString => EmptyString
  | String c s' =>
      match trim_end s' with
      | EmptyString => if is_space c then EmptyString else String c EmptyString
      | t => String c t
      end
  end.

Definition trim (s : string) : string := trim_end (trim_start s).

Definition is_digit (c : ascii) : bool :=
  let n := nat_of_ascii c in ((48 <=? n) && (n <=? 57))%nat.

Definition digit_val (c : ascii) : Z := Z.of_nat (nat_of_ascii c) - 48.

Fixpoint digits_value (acc : Z) (s : string) : Z :=
  match s with
  | String c s' => if is_digit c then digits_value (10 * acc + digit_val c) s' else acc
  | EmptyString => acc
  end.

Definition parse_digits (s : string) : option Z :=
  match s with
  | String c _ => if is_digit c then Some (digits_value 0 s) else None
  | EmptyString => None
  end.

(** [parseInt(s, 10)]: leading white space, an optional sign, then the
    longest run of digits; [None] is NaN. *)
Definition parseInt10 (s : string) : option Z :=
  match trim_start s with
  | String "-" s' => option_map Z.opp (parse_digits s')
  | String "+" s' => parse_digits s'
  | s' => parse_digits s'
  end.

End JS.
Import JS.

(* ================================================================== *)
(** ** Regular expressions of the validators *)

Module Regex.

Inductive regex : Type :=
| Chr (c : ascii)                (* a literal character *)
| Range (lo hi : ascii)          (* [lo-hi] *)
| Cat (r1 r2 : regex)
| Alt (r1 r2 : regex).

Definition digit : regex := Range "0" "9".          (* \d *)

Definition in_range (lo hi c : ascii) : bool :=
  ((nat_of_ascii lo <=? nat_of_ascii c) && (nat_of_ascii c <=? nat_of_ascii hi))%nat.

(** [run r s]: the rests of [s] after each way [r] can match a prefix
    of it, in the order a backtracking matcher tries them. *)
Fixpoint run (r : regex) (s : string) : list string :=
  match r with
  | Chr c =>
      match s with
      | String c' s' => if Ascii.eqb c c' then [s'] else []
      | EmptyString => []
      end
  | Range lo hi =>
      match s with
      | String c' s' => if in_range lo hi c' then [s'] else []
      | EmptyString => []
      end
  | Cat r1 r2 => flat_map (run r2) (run r1 s)
  | Alt r1 r2 => run r1 s ++ run r2 s
  end.

Definition at_end (s : string) : bool :=
  match s with EmptyString => true | _ => false end.

(** [/^r$/.test(s)] on a string [s]. *)
Definition test_anchored (r : regex) (s : string) : bool :=
  existsb at_end (run r s).

(** [/^\d{4}-\d{2}-\d{2}$/] *)
Definition date_re : regex :=
  Cat digit (Cat digit (Cat digit (Cat digit
    (Cat (Chr "-") (Cat digit (Cat digit
      (Cat (Chr "-") (Cat digit digit)))))))).

(** [/^([01]\d|2[0-3]):[0-5]\d$/] *)
Definition time_re : regex :=
  Cat (Alt (Cat (Range "0" "1") digit) (Cat (Chr "2") (Range "0" "3")))
    (Cat (Chr ":") (Cat (Range "0" "5") digit)).

(** [RegExp.prototype.test(v)] converts its argument with [ToString]
    first, and raises what that conversion raises. *)
Definition test (r : regex) (v : jsval) : error + bool :=
  match ToString v with
  | inl e => inl e
  | inr s => inr (test_anchored r s)
  end.

End Regex.
Import Regex.

(** [const isValidDate = (s) => /^\d{4}-\d{2}-\d{2}$/.test(s);] *)
Definition isValidDate (s : jsval) : error + bool := test date_re s.

(** [const isValidTime = (s) => /^([01]\d|2[0-3]):[0-5]\d$/.test(s);] *)
Definition isValidTime (s : jsval) : error + bool := test time_re s.

(* ================================================================== *)
(** ** The storage layer *)

Module Patient.
(** [patients (id INT AUTO_INCREMENT PRIMARY KEY, name VARCHAR(255) NOT
    NULL, contact VARCHAR(255))] *)
Record row : Type := mk { id : Z; name : string; contact : option string }.
End Patient.

Module Appointment.
(** [appointments (id INT AUTO_INCREMENT PRIMARY KEY, patient_id INT NOT
    NULL, appointment_date DATE NOT NULL, appointment_time TIME NOT NULL,
    reason TEXT, created_at TIMESTAMP DEFAULT CURRENT_TIMESTAMP, FOREIGN
    KEY (patient_id) REFERENCES patients(id))]. A cell is written as the
    server shows it: a date as [YYYY-MM-DD], a time as [HH:MM:SS], a
    timestamp as [YYYY-MM-DD HH:MM:SS]. Every text in the validated
    syntax is taken to name a day: the server's own check of the
    calendar is not modelled. *)
Record row : Type := mk {
  id : Z;
  patient_id : Z;
  appointment_date : string;
  appointment_time : string;
  reason : string;
  created_at : string
}.
End Appointment.

(** The two tables, their [AUTO_INCREMENT] counters and the reading of
    the server's clock ([CURRENT_TIMESTAMP]); the model does not let time
    pass. *)
Record DB : Type := mkDB {
  patients : list Patient.row;
  appointments : list Appointment.row;
  next_patient_id : Z;
  next_appointment_id : Z;
  clock : string
}.

Inductive log_entry : Type :=
| Info (line : string) (payload : jsval)        (* console.log *)
| Failure (line : string) (e : error).          (* console.error *)

(** The world a handler runs in: the tables, the storage layer's coming
    behaviour (one entry per storage call still to come, [Some msg] when
    that call is rejected with message [msg]; none left: no rejection) and
    the console. *)
Record World : Type := mkWorld {
  db : DB;
  faults : list (option string);
  console : list log_entry
}.

Definition M (A : Type) : Type := World -> (error + A) * World.

Definition ret {A} (a : A) : M A := fun w => (inr a, w).

Definition throw {A} (e : error) : M A := fun w => (inl e, w).

Definition bind {A B} (m : M A) (k : A -> M B) : M B :=
  fun w => match m w with
           | (inl e, w') => (inl e, w')
           | (inr a, w') => k a w'
           end.

(** [try { m } catch (err) { h err }] *)
Definition try_catch {A} (m : M A) (h : error -> M A) : M A :=
  fun w => match m w with
           | (inl e, w') => h e w'
           | (inr a, w') => (inr a, w')
           end.

(** A pure computation that may raise. *)
Definition lift {A} (r : error + A) : M A := fun w => (r, w).

Notation "x <- m ;; k" := (bind m (fun x => k))
  (at level 61, m at next level, right associativity).
Notation "m ;;; k" := (bind m (fun _ => k))
  (at level 61, right associativity).

Definition console_log (line : string) (payload : jsval) : M unit :=
  fun w => (inr tt, mkWorld (db w) (faults w) (console w ++ [Info line payload])).

Definition console_error (line : string) (e : error) : M unit :=
  fun w => (inr tt, mkWorld (db w) (faults w) (console w ++ [Failure line e])).

(** One storage call ([pool.query], [conn.query], [pool.getConnection]):
    rejected if the storage layer says so, otherwise answered from the
    tables by [q]. *)
Definition storage_call {A} (q : DB -> A * DB) : M A :=
  fun w =>
    match faults w with
    | Some msg :: rest => (inl (DbError msg), mkWorld (db w) rest (console w))
    | None :: rest =>
        let (a, d) := q (db w) in (inr a, mkWorld d rest (console w))
    | [] =>
        let (a, d) := q (db w) in (inr a, mkWorld d [] (console w))
    end.

(** A storage call that the driver or the server may also refuse on its
    own account: [refusal] gives the error, if any, from the statement
    and the tables. The connection comes first, so a rejection by the
    storage layer takes precedence; a refused call leaves the tables as
    they are. *)
Definition checked_call {A} (refusal : DB -> option error) (q : DB -> A * DB)
  : M A :=
  fun w =>
    match faults w with
    | Some msg :: rest => (inl (DbError msg), mkWorld (db w) rest (console w))
    | _ =>
        match refusal (db w) with
        | Some e => (inl e, mkWorld (db w) (tl (faults w)) (console w))
        | None =>
            let (a, d) := q (db w) in (inr a, mkWorld d (tl (faults w)) (console w))
        end
    end.

(** The text the statement carries for a value bound as a date, a time
    or a reason. Every value that reaches a statement below in such a
    place is a string, a nest of one-element arrays around a string (bound
    as that string), or the Date object of the row just read, which the
    driver binds from its fields as midnight of its day: the same date. *)
Definition sql_text (v : jsval) : string :=
  match v with
  | DateObj c => c
  | _ => match ToString v with inr s => s | inl _ => EmptyString end
  end.

(** The [TIME] cell a bound text denotes: the server takes [HH:MM] as
    hours and minutes, and shows every time as [HH:MM:SS]. *)
Definition normal_time (t : string) : string :=
  if test_anchored time_re t then t ++ ":00" else t.

(** What becomes of a value bound to a text column ([name], [contact]).
    The driver writes null and undefined as [NULL], a boolean as the
    number the server reads it as, a number in digits, a string as
    itself, the elements of an array one after the other (so only an
    array of one element still stands for one value), and any other
    object as its text, which raises for an object with an own
    [toString]; a Date, which no request carries, is given its cell.
    [inl]: the driver raises; [inr None]: the statement no longer has
    one value in that place and the server rejects it; [inr (Some c)]:
    the cell, [None] being [NULL]. *)
Fixpoint bound (v : jsval) : error + option (option string) :=
  match v with
  | Undefined | Null => inr (Some None)
  | Bool b => inr (Some (Some (if b then "1" else "0")))
  | Num z => inr (Some (Some (render_Z z)))
  | Frac n w f => inr (Some (Some (render_frac n w f)))
  | Str s => inr (Some (Some s))
  | Arr [x] => bound x
  | Arr _ => inr None
  | Obj fs =>
      if has_key "toString" fs
      then inl (TypeError "Cannot convert object to primitive value")
      else inr (Some (Some "[object Object]"))
  | DateObj c => inr (Some (Some c))
  end.

Definition cell_of (v : jsval) : option string :=
  match bound v with inr (Some c) => c | _ => None end.

Definition text_of (v : jsval) : string :=
  match cell_of v with Some s => s | None => EmptyString end.

(** The server's message for a statement it cannot read is not
    modelled beyond this text. *)
Definition syntax_message : string := "You have an error in your SQL syntax".

(** Why [name] and [contact] cannot be written, if they cannot: the
    driver raises on one of them, the statement is broken, or [name]
    ([NOT NULL]) would be [NULL]. *)
Definition unwritable (name contact : jsval) : option error :=
  match bound name, bound contact with
  | inl e, _ => Some e
  | inr _, inl e => Some e
  | inr None, inr _ => Some (DbError syntax_message)
  | inr (Some _), inr None => Some (DbError syntax_message)
  | inr (Some None), inr (Some _) => Some (DbError "Column 'name' cannot be null")
  | inr (Some (Some _)), inr (Some _) => None
  end.

(** The rows [WHERE id = ?] selects for the result of [parseInt]; NaN
    selects none (and a statement that carries it is refused, see
    [nan_refused]). *)
Definition id_is (p : option Z) (z : Z) : bool :=
  match p with Some k => z =? k | None => false end.

(** The driver writes NaN as a bare word, which the server reads as the
    name of a column and refuses. *)
Definition nan_refused (p : option Z) : option error :=
  match p with
  | Some _ => None
  | None => Some (DbError "Unknown column 'NaN' in 'where clause'")
  end.

(** The server's messages for a foreign key that fails, up to the names
    of the schema they go on with. *)
Definition parent_message : string :=
  "Cannot delete or update a parent row: a foreign key constraint fails".
Definition child_message : string :=
  "Cannot add or update a child row: a foreign key constraint fails".

Fixpoint insert_by {A} (key : A -> Z) (x : A) (l : list A) : list A :=
  match l with
  | [] => [x]
  | y :: l' => if key x <? key y then x :: l else y :: insert_by key x l'
  end.

(** [ORDER BY key] (rows with equal keys keep their table order). *)
Definition order_by {A} (key : A -> Z) (l : list A) : list A :=
  fold_right (insert_by key) [] l.

Module Sql.

(** [SELECT id, name, contact FROM patients ORDER BY id] *)
Definition select_patients : M (list Patient.row) :=
  storage_call (fun d => (order_by Patient.id (patients d), d)).

(** [INSERT INTO patients (name, contact) VALUES (?, ?)]; gives
    [insertId]. *)
Definition insert_patient (name contact : jsval) : M Z :=
  checked_call (fun _ => unwritable name contact)
    (fun d =>
       let i := next_patient_id d in
       (i, mkDB (patients d ++ [Patient.mk i (text_of name) (cell_of contact)])
                (appointments d) (i + 1) (next_appointment_id d) (clock d))).

(** [SELECT ... FROM patients WHERE id = ?] *)
Definition select_patient (p : option Z) : M (list Patient.row) :=
  checked_call (fun _ => nan_refused p)
    (fun d => (filter (fun r => id_is p (Patient.id r)) (patients d), d)).

(** [UPDATE patients SET name = ?, contact = ? WHERE id = ?]; gives
    [affectedRows]. *)
Definition update_patient (name contact : jsval) (p : option Z) : M nat :=
  checked_call
    (fun _ => match unwritable name contact with
              | Some e => Some e
              | None => nan_refused p
              end)
    (fun d =>
       (List.length (filter (fun r => id_is p (Patient.id r)) (patients d)),
        mkDB (map (fun r => if id_is p (Patient.id r)
                            then Patient.mk (Patient.id r) (text_of name)
                                   (cell_of contact)
                            else r) (patients d))
             (appointments d) (next_patient_id d) (next_appointment_id d)
             (clock d))).

(** A patient row with this identity is referenced by an appointment. *)
Definition referenced (d : DB) (p : option Z) : bool :=
  existsb (fun r => id_is p (Patient.id r)) (patients d)
  && existsb (fun a => id_is p (Appointment.patient_id a)) (appointments d).

(** [DELETE FROM patients WHERE id = ?]; gives [affectedRows]. The
    foreign key of the appointment table has no [ON DELETE] action, so
    the server refuses to delete a patient an appointment refers to. *)
Definition delete_patient (p : option Z) : M nat :=
  checked_call
    (fun d => match nan_refused p with
              | Some e => Some e
              | None => if referenced d p then Some (DbError parent_message)
                        else None
              end)
    (fun d =>
       (List.length (filter (fun r => id_is p (Patient.id r)) (patients d)),
        mkDB (filter (fun r => negb (id_is p (Patient.id r))) (patients d))
             (appointments d) (next_patient_id d) (next_appointment_id d)
             (clock d))).

(** [SELECT * FROM appointments ORDER BY patient_id] *)
Definition select_appointments : M (list Appointment.row) :=
  storage_call (fun d => (order_by Appointment.patient_id (appointments d), d)).

(** [SELECT id FROM appointments WHERE patient_id = ? AND
    appointment_date = ? AND appointment_time = ?] *)
Definition select_slot (patientId : Z) (date time : jsval)
  : M (list Appointment.row) :=
  storage_call (fun d =>
    (filter (fun r => (Appointment.patient_id r =? patientId)
                      && String.eqb (Appointment.appointment_date r) (sql_text date)
                      && String.eqb (Appointment.appointment_time r)
                           (normal_time (sql_text time)))
            (appointments d), d)).

(** [INSERT INTO appointments (patient_id, appointment_date,
    appointment_time, reason) VALUES (?, ?, ?, ?)]; gives [insertId].
    [created_at] takes the server's clock; the foreign key refuses a
    patient that is not on record. *)
Definition insert_appointment (patientId : Z) (date time : jsval) (reason : string)
  : M Z :=
  checked_call
    (fun d => if existsb (fun r => Patient.id r =? patientId) (patients d)
              then None else Some (DbError child_message))
    (fun d =>
       let i := next_appointment_id d in
       (i, mkDB (patients d)
                (appointments d
                   ++ [Appointment.mk i patientId (sql_text date)
                         (normal_time (sql_text time)) reason (clock d)])
                (next_patient_id d) (i + 1) (clock d))).

(** [SELECT ... FROM appointments WHERE id = ?] *)
Definition select_appointment (p : option Z) : M (list Appointment.row) :=
  checked_call (fun _ => nan_refused p)
    (fun d => (filter (fun r => id_is p (Appointment.id r)) (appointments d), d)).

(** [UPDATE appointments SET appointment_date = ?, appointment_time = ?,
    reason = ? WHERE id = ?] *)
Definition update_appointment (date time reason : jsval) (p : option Z) : M unit :=
  checked_call (fun _ => nan_refused p)
    (fun d =>
       (tt, mkDB (patients d)
                 (map (fun r => if id_is p (Appointment.id r)
                                then Appointment.mk (Appointment.id r)
                                       (Appointment.patient_id r)
                                       (sql_text date) (normal_time (sql_text time))
                                       (sql_text reason)
                                       (Appointment.created_at r)
                                else r) (appointments d))
                 (next_patient_id d) (next_appointment_id d) (clock d))).

(** [DELETE FROM appointments WHERE id = ?]; gives [affectedRows]. *)
Definition delete_appointment (p : option Z) : M nat :=
  checked_call (fun _ => nan_refused p)
    (fun d =>
       (List.length (filter (fun r => id_is p (Appointment.id r)) (appointments d)),
        mkDB (patients d)
             (filter (fun r => negb (id_is p (Appointment.id r))) (appointments d))
             (next_patient_id d) (next_appointment_id d) (clock d))).

(** [pool.getConnection()], [CREATE TABLE IF NOT EXISTS ...]: storage
    calls that leave the rows as they are. *)
Definition no_rows_touched : M unit := storage_call (fun d => (tt, d)).

(** [SELECT COUNT( * ) as count FROM patients] *)
Definition count_patients : M nat :=
  storage_call (fun d => (List.length (patients d), d)).

End Sql.

(** [async function ensurePatientExists(patientId)] *)
Definition ensurePatientExists (patientId : Z) : M bool :=
  rows <- Sql.select_patient (Some patientId) ;;
  ret (0 <? List.length rows)%nat.

(** [async function isSlotTaken(patientId, date, time)] *)
Definition isSlotTaken (patientId : Z) (date time : jsval) : M bool :=
  rows <- Sql.select_slot patientId date time ;;
  ret (0 <? List.length rows)%nat.

(* ================================================================== *)
(** ** The handlers *)

(** What a handler sent: [res.status(s).json(payload)] ([res.json] alone
    is status 200). *)
Inductive response : Type :=
| Sent (status : Z) (payload : jsval).

Definition status_of (r : response) : Z := match r with Sent s _ => s end.
Definition payload_of (r : response) : jsval := match r with Sent _ p => p end.

(** [{ message: m }] *)
Definition message (m : string) : jsval := Obj [("message", Str m)].

(** [a || b] *)
Definition js_or (a b : jsval) : jsval := if truthy a then a else b.

(** [v.trim()] for a string [v]. *)
Definition trimmed (v : jsval) : jsval :=
  match v with Str s => Str (trim s) | _ => Undefined end.

(** The integer an integer-valued number carries. *)
Definition int_of (v : jsval) : Z := match v with Num z => z | _ => 0 end.

(** A [parseInt] result as it is serialised in a reply (NaN becomes
    null). *)
Definition number_json (p : option Z) : jsval :=
  match p with Some z => Num z | None => Null end.

(** [isNaN(id) || id <= 0] *)
Definition invalid_id (p : option Z) : bool :=
  match p with None => true | Some z => z <=? 0 end.

(** [const { ... } = req.body] without a default: raises on undefined
    and null. *)
Definition destructure (b : jsval) : M jsval :=
  match b with
  | Undefined | Null => throw (TypeError "Cannot destructure property of req.body")
  | _ => ret b
  end.

Definition opt_text_json (o : option string) : jsval :=
  match o with Some s => Str s | None => Null end.

Definition patient_json (r : Patient.row) : jsval :=
  Obj [("id", Num (Patient.id r)); ("name", Str (Patient.name r));
       ("contact", opt_text_json (Patient.contact r))].

Definition patient_details_json (r : Patient.row) : jsval :=
  Obj [("PatientId", Num (Patient.id r)); ("name", Str (Patient.name r));
       ("contact", opt_text_json (Patient.contact r))].

(** A row of [SELECT *] as the driver hands it over: the date and the
    timestamp as Date objects, the time as [HH:MM:SS] text. *)
Definition appointment_json (r : Appointment.row) : jsval :=
  Obj [("id", Num (Appointment.id r));
       ("patient_id", Num (Appointment.patient_id r));
       ("appointment_date", DateObj (Appointment.appointment_date r));
       ("appointment_time", Str (Appointment.appointment_time r));
       ("reason", Str (Appointment.reason r));
       ("created_at", DateObj (Appointment.created_at r))].

(** A row of [SELECT id AS AppointmentId, patient_id AS PatientId,
    appointment_date AS AppointmentDate, appointment_time AS
    AppointmentTime, reason AS Reason]. *)
Definition appointment_details_json (r : Appointment.row) : jsval :=
  Obj [("AppointmentId", Num (Appointment.id r));
       ("PatientId", Num (Appointment.patient_id r));
       ("AppointmentDate", DateObj (Appointment.appointment_date r));
       ("AppointmentTime", Str (Appointment.appointment_time r));
       ("Reason", Str (Appointment.reason r))].

(** [catch (err) { console.error('DB Error:', err);
      res.status(500).json({ message: 'Database error', error: err.message }); }] *)
Definition on_db_error (err : error) : M response :=
  console_error "DB Error:" err ;;;
  ret (Sent 500 (Obj [("message", Str "Database error");
                      ("error", Str (err_message err))])).

(** [app.get('/patients', ...)] *)
Definition get_patients : M response :=
  try_catch
    (rows <- Sql.select_patients ;;
     console_log "Patients fetched:" (Arr (map patient_json rows)) ;;;
     ret (Sent 200 (Arr (map patient_json rows))))
    on_db_error.

(** [app.post('/patients', ...)] *)
Definition post_patients (body : jsval) : M response :=
  let b := js_or body (Obj []) in
  let name := get "name" b in
  let contact := get "contact" b in
  if negb (truthy name) || negb (is_string name) || negb (truthy (trimmed name))
  then ret (Sent 400 (message "Invalid name"))
  else
    insertId <- Sql.insert_patient (trimmed name) (js_or contact Null) ;;
    ret (Sent 201 (Obj [("id", Num insertId);
                        ("name", trimmed name);
                        ("contact", js_or contact Null);
                        ("message", Str "Patient created successfully")])).

(** [app.get('/patients/:id', ...)] *)
Definition get_patient (params_id : string) : M response :=
  try_catch
    (let id := parseInt10 params_id in
     if invalid_id id then ret (Sent 400 (message "Invalid PatientId"))
     else
       rows <- Sql.select_patient id ;;
       match rows with
       | [] => ret (Sent 404 (message "Patient not found"))
       | r :: _ => ret (Sent 200 (patient_details_json r))
       end)
    on_db_error.

(** [app.put('/patients/:id', ...)] *)
Definition put_patient (params_id : string) (body : jsval) : M response :=
  try_catch
    (let id := parseInt10 params_id in
     b <- destructure body ;;
     let name := get "name" b in
     let contact := get "contact" b in
     if invalid_id id then ret (Sent 400 (message "Invalid PatientId"))
     else if negb (truthy name) || negb (truthy contact)
     then ret (Sent 400 (message "Name and contact are required"))
     else
       affectedRows <- Sql.update_patient name contact id ;;
       if (affectedRows =? 0)%nat
       then ret (Sent 404 (message "Patient not found"))
       else ret (Sent 200 (message "Patient updated successfully")))
    on_db_error.

(** [app.delete('/patients/:id', ...)] *)
Definition delete_patient (params_id : string) : M response :=
  try_catch
    (let id := parseInt10 params_id in
     if invalid_id id then ret (Sent 400 (message "Invalid PatientId"))
     else
       affectedRows <- Sql.delete_patient id ;;
       if (affectedRows =? 0)%nat
       then ret (Sent 404 (message "Patient not found"))
       else ret (Sent 200 (message "Patient deleted successfully")))
    on_db_error.

(** [app.get('/appointments', ...)] *)
Definition get_appointments : M response :=
  try_catch
    (rows <- Sql.select_appointments ;;
     console_log "Appointments fetched:" (Arr (map appointment_json rows)) ;;;
     ret (Sent 200 (Arr (map appointment_json rows))))
    on_db_error.

Definition date_message : string := "AppointmentDate must be 'YYYY-MM-DD'".
Definition time_message : string := "AppointmentTime must be 'HH:MM' (24h)".
Definition booked_message : string :=
  "This time slot is already booked for this patient".

(** [app.post('/appointments', ...)] *)
Definition post_appointments (body : jsval) : M response :=
  let b := js_or body (Obj []) in
  let PatientId := get "PatientId" b in
  let AppointmentDate := get "AppointmentDate" b in
  let AppointmentTime := get "AppointmentTime" b in
  let Reason := get "Reason" b in
  if negb (Number_isInteger PatientId) || (int_of PatientId <=? 0)
  then ret (Sent 400 (message "Invalid PatientId"))
  else
    date_ok <- lift (isValidDate AppointmentDate) ;;
    if negb date_ok then ret (Sent 400 (message date_message))
    else
      time_ok <- lift (isValidTime AppointmentTime) ;;
      if negb time_ok then ret (Sent 400 (message time_message))
      else if negb (truthy Reason) || negb (is_string Reason)
                || negb (truthy (trimmed Reason))
      then ret (Sent 400 (message "Reason is required"))
      else
        known <- ensurePatientExists (int_of PatientId) ;;
        if negb known then ret (Sent 404 (message "Patient not found"))
        else
          taken <- isSlotTaken (int_of PatientId) AppointmentDate AppointmentTime ;;
          if taken then ret (Sent 409 (message booked_message))
          else
            insertId <- Sql.insert_appointment (int_of PatientId) AppointmentDate
                          AppointmentTime (sql_text (trimmed Reason)) ;;
            ret (Sent 201
                   (Obj [("id", Num insertId);
                         ("patient_id", PatientId);
                         ("appointment_date", AppointmentDate);
                         ("appointment_time", AppointmentTime);
                         ("reason", trimmed Reason);
                         ("message", Str "Appointment created successfully")])).

(** [app.get('/appointments/:id', ...)] *)
Definition get_appointment (params_id : string) : M response :=
  let id := parseInt10 params_id in
  rows <- Sql.select_appointment id ;;
  match rows with
  | [] => ret (Sent 404 (message "Appointment not found"))
  | r :: _ => ret (Sent 200 (appointment_details_json r))
  end.

(** [x && !isValid(x)]: the validator runs on truthy values only. *)
Definition submitted_and_invalid (valid : jsval -> error + bool) (x : jsval)
  : M bool :=
  if truthy x then ok <- lift (valid x) ;; ret (negb ok) else ret false.

(** [(typeof Reason === 'string' && Reason.trim()) || appt.reason] *)
Definition merged_reason (Reason : jsval) (current : string) : jsval :=
  js_or (if is_string Reason then trimmed Reason else Bool false) (Str current).

(** [app.put('/appointments/:id', ...)] *)
Definition put_appointment (params_id : string) (body : jsval) : M response :=
  let id := parseInt10 params_id in
  rows <- Sql.select_appointment id ;;
  match rows with
  | [] => ret (Sent 404 (message "Appointment not found"))
  | appt :: _ =>
      let b := js_or body (Obj []) in
      let AppointmentDate := get "AppointmentDate" b in
      let AppointmentTime := get "AppointmentTime" b in
      let Reason := get "Reason" b in
      bad_date <- submitted_and_invalid isValidDate AppointmentDate ;;
      if bad_date then ret (Sent 400 (message date_message))
      else
        bad_time <- submitted_and_invalid isValidTime AppointmentTime ;;
        if bad_time then ret (Sent 400 (message time_message))
        else
          let newDate :=
            js_or AppointmentDate (DateObj (Appointment.appointment_date appt)) in
          let newTime := js_or AppointmentTime (Str (Appointment.appointment_time appt)) in
          let newReason := merged_reason Reason (Appointment.reason appt) in
          taken <- isSlotTaken (Appointment.patient_id appt) newDate newTime ;;
          if taken
             && negb (strict_eq_date newDate (Appointment.appointment_date appt)
                      && strict_eq_str newTime (Appointment.appointment_time appt))
          then ret (Sent 409 (message booked_message))
          else
            Sql.update_appointment newDate newTime newReason id ;;;
            ret (Sent 200
                   (Obj [("AppointmentId", number_json id);
                         ("PatientId", Num (Appointment.patient_id appt));
                         ("AppointmentDate", newDate);
                         ("AppointmentTime", newTime);
                         ("Reason", newReason);
                         ("Message", Str "Appointment updated successfully")]))
  end.

(** [app.delete('/appointments/:id', ...)] *)
Definition delete_appointment (params_id : string) : M response :=
  let id := parseInt10 params_id in
  affectedRows <- Sql.delete_appointment id ;;
  if (affectedRows =? 0)%nat
  then ret (Sent 404 (message "Appointment not found"))
  else ret (Sent 200 (Obj [("AppointmentId", number_json id);
                           ("Message", Str "Appointment deleted successfully")])).

(** [app.get('/', ...)] *)
Definition get_root : M response :=
  ret (Sent 200 (Obj [("status", Str "ok"); ("docs", Str "/api-docs")])).

(** The start-up block: tables are created if missing and a first
    patient is seeded into an empty table. *)
Definition startup : M unit :=
  try_catch
    (Sql.no_rows_touched ;;;                       (* pool.getConnection() *)
     Sql.no_rows_touched ;;;                       (* CREATE TABLE patients *)
     Sql.no_rows_touched ;;;                       (* CREATE TABLE appointments *)
     count <- Sql.count_patients ;;
     (if (count =? 0)%nat
      then Sql.insert_patient (Str "John Doe") (Str "123456789") ;;;
           console_log "Seed patient added" Undefined
      else ret tt) ;;;
     console_log "Tables ready and seed check complete" Undefined)
    (fun err => console_error "DB error:" err).

(** The routes. *)
Inductive request : Type :=
| GET_patients
| POST_patients (body : jsval)
| GET_patient (id : string)
| PUT_patient (id : string) (body : jsval)
| DELETE_patient (id : string)
| GET_appointments
| POST_appointments (body : jsval)
| GET_appointment (id : string)
| PUT_appointment (id : string) (body : jsval)
| DELETE_appointment (id : string)
| GET_root.

Definition handle (r : request) : M response :=
  match r with
  | GET_patients => get_patients
  | POST_patients b => post_patients b
  | GET_patient i => get_patient i
  | PUT_patient i b => put_patient i b
  | DELETE_patient i => delete_patient i
  | GET_appointments => get_appointments
  | POST_appointments b => post_appointments b
  | GET_appointment i => get_appointment i
  | PUT_appointment i b => put_appointment i b
  | DELETE_appointment i => delete_appointment i
  | GET_root => get_root
  end.

(** Requests served one after the other; each leaves its world to the
    next. *)
Fixpoint serve (rs : list request) (w : World) : World :=
  match rs with
  | [] => w
  | r :: rs' => serve rs' (snd (handle r w))
  end.

(** An empty database whose counters start at 1, a storage layer that
    rejects nothing, an empty console. *)
Definition empty_db : DB := mkDB [] [] 1 1 "2025-08-01 09:00:00".
Definition fresh : World := mkWorld empty_db [] [].

(* ================================================================== *)
(** ** Vocabulary of the properties *)

(** Four digits, [-], two digits, [-], two digits. *)
Definition date_format (s : string) : Prop :=
  exists y1 y2 y3 y4 m1 m2 d1 d2 : ascii,
    s = String y1 (String y2 (String y3 (String y4 (String "-"
          (String m1 (String m2 (String "-" (String d1 (String d2 EmptyString))))))))) /\
    is_digit y1 = true /\ is_digit y2 = true /\ is_digit y3 = true /\
    is_digit y4 = true /\ is_digit m1 = true /\ is_digit m2 = true /\
    is_digit d1 = true /\ is_digit d2 = true.

(** Two digits, [:], two digits, the hour at most 23 and the minute at
    most 59. *)
Definition time_format (s : string) : Prop :=
  exists h1 h2 m1 m2 : ascii,
    s = String h1 (String h2 (String ":" (String m1 (String m2 EmptyString)))) /\
    is_digit h1 = true /\ is_digit h2 = true /\
    is_digit m1 = true /\ is_digit m2 = true /\
    10 * digit_val h1 + digit_val h2 <= 23 /\
    10 * digit_val m1 + digit_val m2 <= 59.

Fixpoint all_chars (p : ascii -> bool) (s : string) : bool :=
  match s with
  | EmptyString => true
  | String c s' => p c && all_chars p s'
  end.

Definition date_char (c : ascii) : bool := is_digit c || Ascii.eqb c "-".
Definition time_char (c : ascii) : bool := is_digit c || Ascii.eqb c ":".

(** The storage layer answers (does not reject) the next [n] calls. *)
Fixpoint accepts (n : nat) (fs : list (option string)) : bool :=
  match n, fs with
  | O, _ => true
  | S _, [] => true
  | S n', None :: fs' => accepts n' fs'
  | S _, Some _ :: _ => false
  end.

(** The world after one answered storage call that left the tables
    as they were. *)
Definition after_call (w : World) : World :=
  mkWorld (db w) (tl (faults w)) (console w).

(** A patient with this identity is on record. *)
Definition known_patient (d : DB) (patientId : Z) : bool :=
  existsb (fun r => Patient.id r =? patientId) (patients d).

(** The slot of a row: its patient with its date and time. *)
Definition slot_key (r : Appointment.row) : Z * (string * string) :=
  (Appointment.patient_id r,
   (Appointment.appointment_date r, Appointment.appointment_time r)).

(** The row holds this patient's slot, the date and the time being
    given as the texts a statement carries ([HH:MM] stands for the cell
    [HH:MM:00]). *)
Definition holds_slot (patientId : Z) (date time : string) (r : Appointment.row)
  : bool :=
  (Appointment.patient_id r =? patientId)
  && String.eqb (Appointment.appointment_date r) date
  && String.eqb (Appointment.appointment_time r) (normal_time time).

(** Some live appointment holds this patient's slot. *)
Definition slot_occupied (d : DB) (patientId : Z) (date time : string) : bool :=
  existsb (holds_slot patientId date time) (appointments d).

(** No two live appointments of one patient share a date and time. *)
Definition slot_exclusive (d : DB) : Prop :=
  NoDup (map slot_key (appointments d)).

(** The primary key: identities are distinct and below the counter. *)
Definition ids_distinct (d : DB) : Prop :=
  NoDup (map Appointment.id (appointments d)) /\
  Forall (fun r => Appointment.id r < next_appointment_id d) (appointments d).

(** The cell of a time the validator accepts: [HH:MM:00]. *)
Definition seconds_form (s : string) : Prop :=
  exists t, test_anchored time_re t = true /\ s = t ++ ":00".

(** Every stored date is a text the date validator accepts and every
    stored time is the cell of a time the time validator accepts. *)
Definition slots_well_formed (d : DB) : Prop :=
  Forall (fun r => test_anchored date_re (Appointment.appointment_date r) = true
                   /\ seconds_form (Appointment.appointment_time r))
         (appointments d).

Definition consistent (d : DB) : Prop :=
  ids_distinct d /\ slot_exclusive d /\ slots_well_formed d.

(** [triple P m Q E]: from tables satisfying [P], [m] returns [a] with
    tables satisfying [Q a], or raises with tables satisfying [E]. *)
Definition triple {A} (P : DB -> Prop) (m : M A) (Q : A -> DB -> Prop)
  (E : DB -> Prop) : Prop :=
  forall w, P (db w) ->
    match m w with
    | (inr a, w') => Q a (db w')
    | (inl _, w') => E (db w')
    end.



(** A property of the request body, read as the handlers read it
    ([req.body || {}]). *)
Definition field (k : string) (body : jsval) : jsval :=
  get k (js_or body (Obj [])).

(** [!Number.isInteger(PatientId) || PatientId <= 0] *)
Definition invalid_patient_ref (v : jsval) : bool :=
  negb (Number_isInteger v) || (int_of v <=? 0).

(** [!Reason || typeof Reason !== 'string' || !Reason.trim()] *)
Definition reason_missing (v : jsval) : bool :=
  negb (truthy v) || negb (is_string v) || negb (truthy (trimmed v)).

(** A submitted date or time passes the update handler's check: it is
    falsy (not checked) or the validator accepts it. *)
Definition passes_update_check (valid : jsval -> error + bool) (v : jsval) : Prop :=
  truthy v = false \/ valid v = inr true.

(** The rows an identity selects. *)
Definition rows_with_id (d : DB) (p : option Z) : list Appointment.row :=
  filter (fun r => id_is p (Appointment.id r)) (appointments d).



(** The appointments after rewriting the date, time and reason cells of
    the rows an identity selects. *)
Definition rewritten (p : option Z) (date time reason : string)
  (l : list Appointment.row) : list Appointment.row :=
  map (fun r => if id_is p (Appointment.id r)
                then Appointment.mk (Appointment.id r) (Appointment.patient_id r)
                       date time reason (Appointment.created_at r)
                else r) l.


(** Some appointment refers to this patient. *)
Definition has_appointments (d : DB) (patientId : Z) : bool :=
  existsb (fun a => Appointment.patient_id a =? patientId) (appointments d).

(** The foreign key: every appointment refers to a patient on record. *)
Definition references_resolve (d : DB) : Prop :=
  Forall (fun a => known_patient d (Appointment.patient_id a) = true)
         (appointments d).

(** The patient rows an identity selects. *)
Definition patients_with_id (d : DB) (p : option Z) : list Patient.row :=
  filter (fun r => id_is p (Patient.id r)) (patients d).

(** [!name || typeof name !== 'string' || !name.trim()] *)
Definition invalid_name (v : jsval) : bool :=
  negb (truthy v) || negb (is_string v) || negb (truthy (trimmed v)).


(** Every stored reason is a non-empty text. *)
Definition reasons_present (d : DB) : Prop :=
  Forall (fun r => Appointment.reason r <> EmptyString) (appointments d).

(** The handler answered with status 200 or 201. *)
Definition succeeded (o : error + response) : bool :=
  match o with
  | inr (Sent s _) => (s =? 200) || (s =? 201)
  | inl _ => false
  end.

(** The status a handler answered with, if it answered. *)
Definition reply_status (o : error + response) : option Z :=
  match o with inr r => Some (status_of r) | inl _ => None end.

(** From tables [d0]: an answer other than 200/201, or a raise, leaves
    them [d0]. *)
Definition unchanged_unless_success (d0 : DB) (h : M response) : Prop :=
  triple (eq d0) h
    (fun r d => succeeded (inr r) = false -> d = d0) (eq d0).

(** The routes under [/appointments], and those under [/patients]. *)
Definition on_appointments (r : request) : bool :=
  match r with
  | GET_appointments | POST_appointments _ | GET_appointment _
  | PUT_appointment _ _ | DELETE_appointment _ => true
  | _ => false
  end.

Definition on_patients (r : request) : bool :=
  match r with
  | GET_patients | POST_patients _ | GET_patient _
  | PUT_patient _ _ | DELETE_patient _ => true
  | _ => false
  end.

(** The patient table and its counter are those of [d0]; likewise for
    the appointment table. *)
Definition same_patients (d0 d : DB) : Prop :=
  patients d = patients d0 /\ next_patient_id d = next_patient_id d0.

Definition same_appointments (d0 d : DB) : Prop :=
  appointments d = appointments d0
  /\ next_appointment_id d = next_appointment_id d0.


(** What an update may do to the tables: nothing, or rewrite date, time
    and reason of the rows its identity selects. *)
Definition only_selected_rewritten (p : option Z) (d0 d : DB) : Prop :=
  patients d = patients d0
  /\ next_patient_id d = next_patient_id d0
  /\ next_appointment_id d = next_appointment_id d0
  /\ (appointments d = appointments d0
      \/ exists date time reason,
           appointments d = rewritten p date time reason (appointments d0)).

(** A value that gives no text to keep: not a string, or a string of
    white space only (the empty string included). *)
Definition no_text (v : jsval) : Prop :=
  is_string v = false \/ exists s, v = Str s /\ all_chars is_space s = true.

(** A world whose next storage call is rejected with message [msg]. *)
Definition failing (msg : string) (w : World) : World :=
  mkWorld (db w) (Some msg :: faults w) (console w).

(** Two readings of the server's clock, for the examples: when their
    appointments were booked, and the present. *)
Definition booked_at : string := "2025-08-01 09:00:00".
Definition clock_now : string := "2025-08-01 09:30:00".

(* ================================================================== *)
(** ** The temporal validators *)

Section Validators.

Lemma digit_bounds c : is_digit c = true <-> (48 <= nat_of_ascii c <= 57)%nat.
Proof.
  unfold is_digit. rewrite andb_true_iff, !Nat.leb_le. tauto.
Qed.

Lemma in_range_bounds lo hi c :
  in_range lo hi c = true
  <-> (nat_of_ascii lo <= nat_of_ascii c <= nat_of_ascii hi)%nat.
Proof.
  unfold in_range. rewrite andb_true_iff, !Nat.leb_le. tauto.
Qed.

Lemma digit_range c : in_range "0" "9" c = is_digit c.
Proof. reflexivity. Qed.

Ltac char_codes :=
  change (nat_of_ascii "0") with 48%nat in *;
  change (nat_of_ascii "1") with 49%nat in *;
  change (nat_of_ascii "2") with 50%nat in *;
  change (nat_of_ascii "3") with 51%nat in *;
  change (nat_of_ascii "5") with 53%nat in *;
  change (nat_of_ascii "9") with 57%nat in *.

(** Walks the matcher down a string one character at a time, splitting
    on each character test. *)
Ltac walk_string s :=
  repeat (destruct s as [|? s]; cbn [run flat_map app existsb at_end orb];
          try discriminate;
          repeat match goal with
                 | |- context [in_range ?a ?b ?c] => destruct (in_range a b c) eqn:?
                 | |- context [Ascii.eqb ?a ?c] =>
                     destruct (Ascii.eqb_spec a c); subst
                 end;
          cbn [run flat_map app existsb at_end orb]; try discriminate).

Lemma date_re_format s : test_anchored date_re s = true <-> date_format s.
Proof.
  split.
  - unfold test_anchored, date_re, digit. walk_string s.
    all: intros _; unfold date_format; do 8 eexists;
      split; [reflexivity|]; repeat split; assumption.
  - intros (y1&y2&y3&y4&m1&m2&d1&d2&->&H1&H2&H3&H4&H5&H6&H7&H8).
    unfold test_anchored, date_re, digit.
    repeat (cbn -[in_range];
            rewrite ?digit_range, ?H1, ?H2, ?H3, ?H4, ?H5, ?H6, ?H7, ?H8).
    reflexivity.
Qed.

Lemma time_re_format s : test_anchored time_re s = true <-> time_format s.
Proof.
  split.
  - unfold test_anchored, time_re, digit. walk_string s.
    all: intros _; unfold time_format; do 4 eexists; split; [reflexivity|].
    all: repeat match goal with
                | H : in_range _ _ _ = true |- _ => apply in_range_bounds in H
                | H : in_range _ _ _ = false |- _ => clear H
                end.
    all: rewrite !digit_bounds; unfold digit_val; char_codes; lia.
  - intros (h1&h2&m1&m2&->&H1&H2&H3&H4&Hh&Hm).
    apply digit_bounds in H1, H2, H3, H4. unfold digit_val in *.
    unfold test_anchored, time_re, digit.
    assert (E3 : in_range "0" "5" m1 = true) by (apply in_range_bounds; char_codes; lia).
    assert (E4 : in_range "0" "9" m2 = true) by (apply in_range_bounds; char_codes; lia).
    assert (E2 : in_range "0" "9" h2 = true) by (apply in_range_bounds; char_codes; lia).
    destruct (in_range "0" "1" h1) eqn:E1.
    + repeat (cbn -[in_range]; rewrite ?E1, ?E2, ?E3, ?E4). reflexivity.
    + assert (Hc : nat_of_ascii h1 = 50%nat).
      { destruct (Nat.le_gt_cases (nat_of_ascii h1) 49) as [Hle|Hgt]; [|lia].
        assert (in_range "0" "1" h1 = true)
          by (apply in_range_bounds; char_codes; lia).
        congruence. }
      assert (h1 = "2"%char)
        by (rewrite <- (ascii_nat_embedding h1), Hc; reflexivity).
      subst h1.
      assert (E5 : in_range "0" "3" h2 = true)
        by (apply in_range_bounds; char_codes; lia).
      repeat (cbn -[in_range]; rewrite ?E1, ?E2, ?E3, ?E4, ?E5). reflexivity.
Qed.

Lemma all_chars_app p a b :
  all_chars p (a ++ b) = all_chars p a && all_chars p b.
Proof.
  induction a as [|c a IH]; cbn; [reflexivity|].
  now rewrite IH, andb_assoc.
Qed.

Lemma uint_all_digits u : all_chars is_digit (NilZero.string_of_uint u) = true.
Proof.
  assert (E : forall v, all_chars is_digit (NilEmpty.string_of_uint v) = true)
    by (induction v; cbn; auto).
  destruct u; try apply E. reflexivity.
Qed.

Lemma date_format_chars s :
  date_format s ->
  all_chars date_char s = true /\ all_chars is_digit s = false
  /\ exists c r, s = String c r /\ is_digit c = true.
Proof.
  intros (y1&y2&y3&y4&m1&m2&d1&d2&->&H1&H2&H3&H4&H5&H6&H7&H8).
  unfold date_char; cbn [all_chars].
  rewrite H1, H2, H3, H4, H5, H6, H7, H8. repeat split; eauto.
Qed.

Lemma time_format_chars s :
  time_format s ->
  all_chars time_char s = true /\ all_chars is_digit s = false.
Proof.
  intros (h1&h2&m1&m2&->&H1&H2&H3&H4&_).
  unfold time_char; cbn [all_chars].
  rewrite H1, H2, H3, H4. split; reflexivity.
Qed.

Lemma render_Z_cases z :
  all_chars is_digit (render_Z z) = true
  \/ exists r, render_Z z = String "-" r.
Proof.
  unfold render_Z. destruct z; cbn -[NilZero.string_of_uint].
  - left; reflexivity.
  - left; apply uint_all_digits.
  - right; eauto.
Qed.

Lemma number_text_rejected z :
  test_anchored date_re (render_Z z) = false
  /\ test_anchored time_re (render_Z z) = false.
Proof.
  split.
  - destruct (test_anchored date_re (render_Z z)) eqn:E; [|reflexivity].
    apply date_re_format, date_format_chars in E.
    destruct E as (_ & Hd & c & r & Hs & Hc).
    destruct (render_Z_cases z) as [H|[r' H]]; [congruence|].
    rewrite H in Hs. injection Hs as <- _. discriminate.
  - destruct (test_anchored time_re (render_Z z)) eqn:E; [|reflexivity].
    apply time_re_format, time_format_chars in E. destruct E as (Ht & Hd).
    destruct (render_Z_cases z) as [H|[r' H]]; [congruence|].
    rewrite H in Ht. discriminate.
Qed.

Lemma fraction_text_rejected n w f :
  test_anchored date_re (render_frac n w f) = false
  /\ test_anchored time_re (render_frac n w f) = false.
Proof.
  assert (Hd : forall p, p "."%char = false ->
                         all_chars p (render_frac n w f) = false).
  { intros p Hp. unfold render_frac. rewrite !all_chars_app. cbn [all_chars].
    rewrite Hp. cbn. now rewrite !andb_false_r. }
  split.
  - destruct (test_anchored date_re (render_frac n w f)) eqn:E; [|reflexivity].
    apply date_re_format, date_format_chars in E. destruct E as (E & _).
    rewrite Hd in E by reflexivity. discriminate.
  - destruct (test_anchored time_re (render_frac n w f)) eqn:E; [|reflexivity].
    apply time_re_format, time_format_chars in E. destruct E as (E & _).
    rewrite Hd in E by reflexivity. discriminate.
Qed.

(** On a string the validators always return, and return the result of
    the anchored match. *)
Lemma validators_on_strings s :
  isValidDate (Str s) = inr (test_anchored date_re s)
  /\ isValidTime (Str s) = inr (test_anchored time_re s).
Proof. split; reflexivity. Qed.


(** The cell of a validated time is not itself in the validated
    syntax, so writing it back leaves it as it is. *)
Lemma seconds_form_rejected s : seconds_form s -> test_anchored time_re s = false.
Proof.
  intros (t & Ht & ->).
  destruct (test_anchored time_re (t ++ ":00")) eqn:E; [|reflexivity].
  apply time_re_format in Ht, E.
  destruct Ht as (h1&h2&m1&m2&->&_). destruct E as (a&b&c&d&E&_).
  cbn in E. discriminate.
Qed.

Lemma seconds_form_normal s : seconds_form s -> normal_time s = s.
Proof.
  intros H. unfold normal_time. now rewrite (seconds_form_rejected s H).
Qed.

Lemma normal_time_seconds t :
  test_anchored time_re t = true -> seconds_form (normal_time t).
Proof. intros H. unfold normal_time. rewrite H. now exists t. Qed.

End Validators.

(** C5, as stated, fails: a value that is not a string can pass both
    validators (a one-element array around a well-formed string is
    converted to that string before the match), and a value can make
    them raise (an object with an own [toString] property cannot be
    converted). *)
Lemma C5_nonstring_accepted_or_raising :
  (isValidDate (Arr [Str "2025-08-20"]) = inr true
   /\ ~ (exists s, Arr [Str "2025-08-20"] = Str s /\ date_format s))
  /\ (isValidTime (Arr [Str "14:30"]) = inr true
      /\ ~ (exists s, Arr [Str "14:30"] = Str s /\ time_format s))
  /\ isValidDate (Obj [("toString", Null)])
     = inl (TypeError "Cannot convert object to primitive value").
Proof.
  repeat split; try reflexivity; intros (s & H & _); discriminate.
Qed.

(** C5, amended: on every string [isValidDate] returns true exactly for
    four digits, dash, two digits, dash, two digits, and [isValidTime]
    exactly for HH:MM with hour at most 23 and minute at most 59, and
    false otherwise; undefined, null, booleans and numbers are rejected
    without raising; an array is judged by the text it converts to (so
    a one-element array around a string is judged as that string); an
    object is rejected, or raises a TypeError when it carries its own
    [toString]. Both are functions of their argument alone. *)
Theorem C5_validators :
  (forall s, (isValidDate (Str s) = inr true <-> date_format s)
             /\ (isValidDate (Str s) = inr false <-> ~ date_format s))
  /\ (forall s, (isValidTime (Str s) = inr true <-> time_format s)
                /\ (isValidTime (Str s) = inr false <-> ~ time_format s))
  /\ (forall v, match v with
                | Undefined | Null | Bool _ | Num _ | Frac _ _ _ =>
                    isValidDate v = inr false /\ isValidTime v = inr false
                | _ => True
                end)
  /\ (forall l, (isValidDate (Arr l)
                 = match ToString (Arr l) with
                   | inl e => inl e
                   | inr s => isValidDate (Str s)
                   end)
                /\ (isValidTime (Arr l)
                    = match ToString (Arr l) with
                      | inl e => inl e
                      | inr s => isValidTime (Str s)
                      end))
  /\ (forall s, isValidDate (Arr [Str s]) = isValidDate (Str s)
                /\ isValidTime (Arr [Str s]) = isValidTime (Str s))
  /\ (forall fs, has_key "toString" fs = false ->
                 isValidDate (Obj fs) = inr false /\ isValidTime (Obj fs) = inr false)
  /\ (forall fs, has_key "toString" fs = true ->
                 isValidDate (Obj fs)
                 = inl (TypeError "Cannot convert object to primitive value")
                 /\ isValidTime (Obj fs)
                    = inl (TypeError "Cannot convert object to primitive value")).
Proof.
  assert (Hb : forall b : bool, (inr b = (inr true : error + bool) <-> b = true)
                                /\ (inr b = (inr false : error + bool) <-> b = false)).
  { intros b; destruct b; repeat split; intros; congruence. }
  split; [|split; [|split; [|split; [|split; [|split]]]]].
  - intros s. destruct (validators_on_strings s) as [-> _].
    destruct (Hb (test_anchored date_re s)) as [Ht Hf].
    rewrite Ht, Hf, <- date_re_format.
    split; [reflexivity|]. destruct (test_anchored date_re s); split; congruence.
  - intros s. destruct (validators_on_strings s) as [_ ->].
    destruct (Hb (test_anchored time_re s)) as [Ht Hf].
    rewrite Ht, Hf, <- time_re_format.
    split; [reflexivity|]. destruct (test_anchored time_re s); split; congruence.
  - intros v. destruct v as [| |b|z|n w f|s|l|fs|c]; try exact I;
      try (split; reflexivity).
    + destruct b; split; reflexivity.
    + unfold isValidDate, isValidTime, test; cbn [ToString].
      destruct (number_text_rejected z) as [-> ->]. split; reflexivity.
    + unfold isValidDate, isValidTime, test; cbn [ToString].
      destruct (fraction_text_rejected n w f) as [-> ->]. split; reflexivity.
  - intros l. unfold isValidDate, isValidTime, test.
    destruct (ToString (Arr l)); split; reflexivity.
  - intros s. split; reflexivity.
  - intros fs H. unfold isValidDate, isValidTime, test; cbn [ToString].
    rewrite H. split; reflexivity.
  - intros fs H. unfold isValidDate, isValidTime, test; cbn [ToString].
    rewrite H. split; reflexivity.
Qed.

(** C5, amended, at concrete values. *)
Lemma C5_validators_witness :
  isValidDate (Str "2025-13-99") = inr true
  /\ isValidTime (Str "24:00") = inr false
  /\ isValidDate (Obj [("a", Num 1)]) = inr false
  /\ isValidDate (Obj [("toString", Num 1)])
     = inl (TypeError "Cannot convert object to primitive value").
Proof.
  destruct C5_validators as (_ & _ & _ & _ & _ & Hplain & Hown).
  split; [reflexivity|]. split; [reflexivity|].
  split.
  - apply (Hplain [("a", Num 1)]). reflexivity.
  - apply (Hown [("toString", Num 1)]). reflexivity.
Defined.

(* ================================================================== *)
(** ** Rules for computations in [M] *)

Section Rules.

Context {A B : Type}.

Lemma triple_ret (P : DB -> Prop) (a : A) (Q : A -> DB -> Prop) E :
  (forall d, P d -> Q a d) -> triple P (ret a) Q E.
Proof. intros H w Hw. cbn. auto. Qed.

Lemma triple_throw (P : DB -> Prop) (e : error) (Q : A -> DB -> Prop)
  (E : DB -> Prop) :
  (forall d, P d -> E d) -> triple P (throw e) Q E.
Proof. intros H w Hw. cbn. auto. Qed.

Lemma triple_lift (P : DB -> Prop) (r : error + A) (Q : A -> DB -> Prop)
  (E : DB -> Prop) :
  (forall d, P d -> match r with inr a => Q a d | inl _ => E d end) ->
  triple P (lift r) Q E.
Proof. intros H w Hw. unfold lift. specialize (H _ Hw). destruct r; auto. Qed.

Lemma triple_bind (P : DB -> Prop) (m : M A) (Q : A -> DB -> Prop)
  (k : A -> M B) (R : B -> DB -> Prop) (E : DB -> Prop) :
  triple P m Q E -> (forall a, triple (Q a) (k a) R E) ->
  triple P (bind m k) R E.
Proof.
  intros Hm Hk w Hw. unfold bind. specialize (Hm w Hw).
  destruct (m w) as [[e|a] w']; [assumption|]. apply Hk, Hm.
Qed.

Lemma triple_try_catch (P : DB -> Prop) (m : M A) (Q : A -> DB -> Prop)
  (h : error -> M A) (E' E : DB -> Prop) :
  triple P m Q E' -> (forall e, triple E' (h e) Q E) ->
  triple P (try_catch m h) Q E.
Proof.
  intros Hm Hh w Hw. unfold try_catch. specialize (Hm w Hw).
  destruct (m w) as [[e|a] w']; [|assumption]. apply Hh, Hm.
Qed.

Lemma triple_storage_call (P : DB -> Prop) (q : DB -> A * DB)
  (Q : A -> DB -> Prop) (E : DB -> Prop) :
  (forall d, P d -> Q (fst (q d)) (snd (q d))) -> (forall d, P d -> E d) ->
  triple P (storage_call q) Q E.
Proof.
  intros Hq He w Hw. unfold storage_call.
  specialize (Hq _ Hw). specialize (He _ Hw).
  destruct (faults w) as [|[msg|] rest]; cbn; try assumption;
    destruct (q (db w)); cbn in *; assumption.
Qed.

Lemma triple_weaken (P P' : DB -> Prop) (m : M A) (Q Q' : A -> DB -> Prop)
  (E E' : DB -> Prop) :
  triple P' m Q' E' ->
  (forall d, P d -> P' d) -> (forall a d, Q' a d -> Q a d) ->
  (forall d, E' d -> E d) ->
  triple P m Q E.
Proof.
  intros Hm HP HQ HE w Hw. specialize (Hm w (HP _ Hw)).
  destruct (m w) as [[e|a] w']; auto.
Qed.

(** Evaluation of a sequence whose first step is known. *)
Lemma bind_returns (m : M A) (k : A -> M B) w a w' :
  m w = (inr a, w') -> bind m k w = k a w'.
Proof. intros H. unfold bind. now rewrite H. Qed.

Lemma bind_raises (m : M A) (k : A -> M B) w e w' :
  m w = (inl e, w') -> bind m k w = (inl e, w').
Proof. intros H. unfold bind. now rewrite H. Qed.

Lemma storage_call_answered (q : DB -> A * DB) n w :
  accepts (S n) (faults w) = true ->
  storage_call q w
  = (inr (fst (q (db w))), mkWorld (snd (q (db w))) (tl (faults w)) (console w))
  /\ accepts n (tl (faults w)) = true.
Proof.
  unfold storage_call. destruct (faults w) as [|[msg|] rest]; cbn.
  - intros _. destruct (q (db w)); split; [reflexivity|]. now destruct n.
  - discriminate.
  - intros H. destruct (q (db w)); split; [reflexivity|assumption].
Qed.

Lemma storage_call_rejected (q : DB -> A * DB) msg w :
  storage_call q (failing msg w)
  = (inl (DbError msg), mkWorld (db w) (faults w) (console w)).
Proof. reflexivity. Qed.

Lemma triple_checked_call (P : DB -> Prop) (refusal : DB -> option error)
  (q : DB -> A * DB) (Q : A -> DB -> Prop) (E : DB -> Prop) :
  (forall d, P d -> refusal d = None -> Q (fst (q d)) (snd (q d))) ->
  (forall d, P d -> E d) ->
  triple P (checked_call refusal q) Q E.
Proof.
  intros Hq He w Hw. unfold checked_call.
  specialize (Hq _ Hw). specialize (He _ Hw).
  destruct (faults w) as [|[msg|] rest]; cbn; try assumption;
    (destruct (refusal (db w)); [assumption|]);
    specialize (Hq eq_refl); destruct (q (db w)); cbn in *; assumption.
Qed.

(** A call the server has no reason of its own to refuse is a plain
    storage call. *)
Lemma checked_call_unrefused (refusal : DB -> option error) (q : DB -> A * DB) w :
  refusal (db w) = None -> checked_call refusal q w = storage_call q w.
Proof.
  intros H. unfold checked_call, storage_call. rewrite H.
  destruct (faults w) as [|[msg|] rest]; reflexivity.
Qed.

Lemma checked_call_answered (refusal : DB -> option error) (q : DB -> A * DB) n w :
  refusal (db w) = None ->
  accepts (S n) (faults w) = true ->
  checked_call refusal q w
  = (inr (fst (q (db w))), mkWorld (snd (q (db w))) (tl (faults w)) (console w))
  /\ accepts n (tl (faults w)) = true.
Proof.
  intros H Ha. rewrite (checked_call_unrefused _ _ _ H).
  now apply storage_call_answered.
Qed.

Lemma checked_call_refused (refusal : DB -> option error) (q : DB -> A * DB) e w :
  refusal (db w) = Some e ->
  accepts 1 (faults w) = true ->
  checked_call refusal q w
  = (inl e, mkWorld (db w) (tl (faults w)) (console w)).
Proof.
  intros H Ha. unfold checked_call. rewrite H.
  destruct (faults w) as [|[msg|] rest]; [reflexivity|discriminate|reflexivity].
Qed.

Lemma checked_call_rejected (refusal : DB -> option error) (q : DB -> A * DB) msg w :
  checked_call refusal q (failing msg w)
  = (inl (DbError msg), mkWorld (db w) (faults w) (console w)).
Proof. reflexivity. Qed.

End Rules.

Lemma triple_console_log (P : DB -> Prop) line v (Q : unit -> DB -> Prop) E :
  (forall d, P d -> Q tt d) -> triple P (console_log line v) Q E.
Proof. intros H w Hw. cbn. auto. Qed.

Lemma triple_console_error (P : DB -> Prop) line e (Q : unit -> DB -> Prop) E :
  (forall d, P d -> Q tt d) -> triple P (console_error line e) Q E.
Proof. intros H w Hw. cbn. auto. Qed.

Lemma accepts_less n fs : accepts (S n) fs = true -> accepts n fs = true.
Proof.
  revert fs. induction n as [|n IH]; intros fs H; [reflexivity|].
  destruct fs as [|[m|] fs]; cbn in *; try reflexivity; try discriminate.
  now apply IH.
Qed.

(* ================================================================== *)
(** ** Facts about the tables *)

Section Tables.

Lemma consistent_same_appointments d d' :
  appointments d' = appointments d ->
  next_appointment_id d' = next_appointment_id d ->
  consistent d -> consistent d'.
Proof.
  unfold consistent, ids_distinct, slot_exclusive, slots_well_formed.
  intros -> ->. tauto.
Qed.

Lemma filter_nonempty_existsb {X} (p : X -> bool) l :
  (0 <? List.length (filter p l))%nat = existsb p l.
Proof.
  induction l as [|x l IH]; cbn; [reflexivity|].
  destruct (p x); cbn; [reflexivity|assumption].
Qed.

Lemma holds_slot_key pid sd st r :
  holds_slot pid sd st r = true <-> slot_key r = (pid, (sd, normal_time st)).
Proof.
  unfold holds_slot, slot_key. rewrite !andb_true_iff, Z.eqb_eq, !String.eqb_eq.
  split.
  - intros [[H1 H2] H3]. now rewrite H1, H2, H3.
  - intros H. injection H as H1 H2 H3. auto.
Qed.

Lemma slot_occupied_key d pid sd st :
  slot_occupied d pid sd st = false ->
  ~ In (pid, (sd, normal_time st)) (map slot_key (appointments d)).
Proof.
  unfold slot_occupied. intros H Hin.
  apply in_map_iff in Hin. destruct Hin as (r & Hk & Hr).
  assert (existsb (holds_slot pid sd st) (appointments d) = true)
    by (apply existsb_exists; exists r; split; [assumption|now apply holds_slot_key]).
  congruence.
Qed.

Lemma NoDup_snoc {X} (l : list X) x : NoDup l -> ~ In x l -> NoDup (l ++ [x]).
Proof.
  intros Hl Hx. apply NoDup_app; [assumption|repeat constructor; intros []|].
  intros a Ha [<-|[]]. contradiction.
Qed.

Lemma NoDup_map_filter {X Y} (f : X -> Y) (p : X -> bool) l :
  NoDup (map f l) -> NoDup (map f (filter p l)).
Proof.
  induction l as [|x l IH]; cbn; [auto|].
  intros H. inversion H as [|? ? Hx Hl]; subst.
  destruct (p x); cbn; [|auto]. constructor; [|auto].
  intros Hin. apply Hx. apply in_map_iff in Hin. destruct Hin as (y & <- & Hy).
  apply in_map. apply filter_In in Hy. tauto.
Qed.

(** Rewriting the rows of one identity: with identities distinct, at
    most one row changes, so a fresh key for it stays distinct. *)
Lemma NoDup_map_retarget {K} (key : Appointment.row -> K)
  (g : Appointment.row -> Appointment.row) (k : Z) (fresh_key : K) l :
  NoDup (map Appointment.id l) -> NoDup (map key l) ->
  ~ In fresh_key (map key l) ->
  (forall r, In r l -> Appointment.id r = k -> key (g r) = fresh_key) ->
  NoDup (map key (map (fun r => if Appointment.id r =? k then g r else r) l)).
Proof.
  intros Hid Hk Hf Hg. rewrite map_map.
  induction l as [|x l IH]; cbn; [constructor|].
  cbn in Hid, Hk, Hf. inversion Hid as [|? ? Hx Hid']; subst.
  inversion Hk as [|? ? Hkx Hk']; subst.
  assert (Hfl : ~ In fresh_key (map key l)) by tauto.
  assert (Hgl : forall r, In r l -> Appointment.id r = k -> key (g r) = fresh_key)
    by (intros r Hr; apply Hg; now right).
  destruct (Z.eqb_spec (Appointment.id x) k) as [Heq|Hne].
  - rewrite (Hg x) by (auto; now left).
    assert (Hsame : map (fun r => key (if Appointment.id r =? k then g r else r)) l
                    = map key l).
    { apply map_ext_in. intros r Hr.
      destruct (Z.eqb_spec (Appointment.id r) k) as [Hr'|]; [|reflexivity].
      exfalso. apply Hx. rewrite Heq, <- Hr'. now apply in_map. }
    rewrite Hsame. constructor; assumption.
  - constructor; [|apply IH; assumption].
    intros Hin. apply in_map_iff in Hin. destruct Hin as (r & Hr & Hrl).
    destruct (Z.eqb_spec (Appointment.id r) k) as [Hr'|].
    + rewrite (Hgl r Hrl Hr') in Hr. apply Hf. left. now symmetry.
    + apply Hkx. rewrite <- Hr. now apply in_map.
Qed.

Lemma selected_row (p : option Z) l appt rest :
  filter (fun r => id_is p (Appointment.id r)) l = appt :: rest ->
  In appt l /\ p = Some (Appointment.id appt).
Proof.
  intros H.
  assert (Hin : In appt (filter (fun r => id_is p (Appointment.id r)) l))
    by (rewrite H; now left).
  apply filter_In in Hin. destruct Hin as [Hin Hp]. split; [assumption|].
  destruct p as [k|]; [|discriminate]. cbn in Hp.
  apply Z.eqb_eq in Hp. now subst.
Qed.

Lemma same_id_same_row l (r r' : Appointment.row) :
  NoDup (map Appointment.id l) -> In r l -> In r' l ->
  Appointment.id r = Appointment.id r' -> r = r'.
Proof.
  induction l as [|x l IH]; cbn; [tauto|].
  intros Hn [->|Hr] [->|Hr'] Hid; inversion Hn as [|? ? Hx Hl]; subst.
  - reflexivity.
  - exfalso. apply Hx. rewrite Hid. now apply in_map.
  - exfalso. apply Hx. rewrite <- Hid. now apply in_map.
  - auto.
Qed.

(** A value that passed a validator is bound as well-formed text. *)
Lemma validated_text (r : regex) v :
  (forall c, test_anchored r (date_text c) = false) ->
  test r v = inr true -> test_anchored r (sql_text v) = true.
Proof.
  intros Hr. destruct v as [| |b|z|n w f|s|l|fs|c]; unfold test, sql_text;
    try (destruct (ToString _); [discriminate|congruence]).
  cbn [ToString]. rewrite Hr. discriminate.
Qed.

Lemma validated_date v :
  isValidDate v = inr true -> test_anchored date_re (sql_text v) = true.
Proof. apply validated_text. reflexivity. Qed.

Lemma validated_time v :
  isValidTime v = inr true -> test_anchored time_re (sql_text v) = true.
Proof. apply validated_text. reflexivity. Qed.

Lemma insert_keeps_consistent d pid sd st rs :
  consistent d -> slot_occupied d pid sd st = false ->
  test_anchored date_re sd = true -> test_anchored time_re st = true ->
  consistent
    (mkDB (patients d)
          (appointments d
             ++ [Appointment.mk (next_appointment_id d) pid sd (normal_time st) rs
                   (clock d)])
          (next_patient_id d) (next_appointment_id d + 1) (clock d)).
Proof.
  intros ((Hid & Hlt) & Hex & Hwf) Hfree Hd Ht.
  unfold slot_exclusive, slots_well_formed in Hex, Hwf.
  unfold consistent, ids_distinct, slot_exclusive, slots_well_formed; cbn.
  rewrite !map_app; cbn. repeat split.
  - apply NoDup_snoc; [assumption|]. intros Hin.
    apply in_map_iff in Hin. destruct Hin as (r & Hr & Hrl).
    rewrite Forall_forall in Hlt. specialize (Hlt r Hrl). lia.
  - apply Forall_app. split.
    + eapply Forall_impl; [|exact Hlt]. cbn. intros; lia.
    + repeat constructor. cbn. lia.
  - apply NoDup_snoc; [assumption|]. now apply slot_occupied_key.
  - apply Forall_app. split; [assumption|]. repeat constructor; cbn;
      [assumption|now apply normal_time_seconds].
Qed.

Lemma update_keeps_consistent d p appt rest sd st rs :
  consistent d ->
  filter (fun r => id_is p (Appointment.id r)) (appointments d) = appt :: rest ->
  slot_occupied d (Appointment.patient_id appt) sd st = false
  \/ (sd = Appointment.appointment_date appt
      /\ normal_time st = Appointment.appointment_time appt) ->
  test_anchored date_re sd = true -> seconds_form (normal_time st) ->
  consistent
    (mkDB (patients d)
          (map (fun r => if id_is p (Appointment.id r)
                         then Appointment.mk (Appointment.id r)
                                (Appointment.patient_id r) sd (normal_time st) rs
                                (Appointment.created_at r)
                         else r) (appointments d))
          (next_patient_id d) (next_appointment_id d) (clock d)).
Proof.
  intros ((Hid & Hlt) & Hex & Hwf) Hsel Hslot Hd Ht.
  unfold slot_exclusive, slots_well_formed in Hex, Hwf.
  destruct (selected_row _ _ _ _ Hsel) as [Hin ->]. cbn [id_is] in *.
  pose (g := fun r => Appointment.mk (Appointment.id r) (Appointment.patient_id r)
                        sd (normal_time st) rs (Appointment.created_at r)).
  set (f := fun r => if Appointment.id r =? Appointment.id appt
                     then Appointment.mk (Appointment.id r)
                            (Appointment.patient_id r) sd (normal_time st) rs
                            (Appointment.created_at r)
                     else r).
  assert (Hids : map Appointment.id (map f (appointments d))
                 = map Appointment.id (appointments d)).
  { rewrite map_map. apply map_ext. intros r. unfold f.
    destruct (Appointment.id r =? Appointment.id appt); reflexivity. }
  assert (Hown : forall r, In r (appointments d) ->
                           Appointment.id r = Appointment.id appt -> r = appt)
    by (intros r Hr He; eapply same_id_same_row; eauto).
  unfold consistent, ids_distinct, slot_exclusive, slots_well_formed.
  cbn [appointments next_appointment_id].
  rewrite Hids. repeat split; try assumption.
  - rewrite Forall_forall in *. intros r Hr.
    apply in_map_iff in Hr. destruct Hr as (r0 & <- & Hr0).
    specialize (Hlt r0 Hr0). unfold f.
    destruct (Appointment.id r0 =? Appointment.id appt); assumption.
  - destruct Hslot as [Hfree|[-> Hst]].
    + apply NoDup_map_retarget
        with (g := g)
             (fresh_key := (Appointment.patient_id appt, (sd, normal_time st)));
        try assumption.
      * now apply slot_occupied_key.
      * intros r Hr He. now rewrite (Hown r Hr He).
    + replace (map slot_key (map f (appointments d)))
        with (map slot_key (appointments d)); [assumption|].
      rewrite map_map. apply map_ext_in. intros r Hr. unfold f.
      destruct (Z.eqb_spec (Appointment.id r) (Appointment.id appt)) as [He|];
        [|reflexivity].
      rewrite (Hown r Hr He). unfold slot_key. cbn. now rewrite Hst.
  - rewrite Forall_forall in *. intros r Hr.
    apply in_map_iff in Hr. destruct Hr as (r0 & <- & Hr0).
    specialize (Hwf r0 Hr0). unfold f.
    destruct (Appointment.id r0 =? Appointment.id appt); [cbn; auto|assumption].
Qed.

Lemma delete_keeps_consistent d (p : Appointment.row -> bool) :
  consistent d ->
  consistent (mkDB (patients d) (filter p (appointments d))
                   (next_patient_id d) (next_appointment_id d) (clock d)).
Proof.
  intros ((Hid & Hlt) & Hex & Hwf).
  unfold slot_exclusive, slots_well_formed in Hex, Hwf.
  unfold consistent, ids_distinct, slot_exclusive, slots_well_formed; cbn.
  repeat split; try (now apply NoDup_map_filter).
  - rewrite Forall_forall in *. intros r Hr. apply filter_In in Hr. now apply Hlt.
  - rewrite Forall_forall in *. intros r Hr. apply filter_In in Hr. now apply Hwf.
Qed.

Lemma no_appointments_consistent d : appointments d = [] -> consistent d.
Proof.
  unfold consistent, ids_distinct, slot_exclusive, slots_well_formed.
  intros ->. cbn. repeat split; constructor.
Qed.

End Tables.

(* ================================================================== *)
(** ** Every handler keeps the tables consistent *)

Section Preservation.

Lemma call_keeps {A} (q : DB -> A * DB) (P E : DB -> Prop) :
  (forall d, P d -> P (snd (q d))) -> (forall d, P d -> E d) ->
  triple P (storage_call q) (fun _ => P) E.
Proof. intros Hq He. apply triple_storage_call; assumption. Qed.

Lemma checked_keeps {A} refusal (q : DB -> A * DB) (P E : DB -> Prop) :
  (forall d, P d -> P (snd (q d))) -> (forall d, P d -> E d) ->
  triple P (checked_call refusal q) (fun _ => P) E.
Proof. intros Hq He. apply triple_checked_call; auto. Qed.

Lemma ensurePatientExists_keeps (P E : DB -> Prop) pid :
  (forall d, P d -> E d) ->
  triple P (ensurePatientExists pid) (fun _ => P) E.
Proof.
  intros He. unfold ensurePatientExists, Sql.select_patient.
  eapply triple_bind; [apply checked_keeps; auto|].
  intros rows. apply triple_ret. auto.
Qed.

Lemma isSlotTaken_reports (P E : DB -> Prop) pid date time :
  (forall d, P d -> E d) ->
  triple P (isSlotTaken pid date time)
    (fun taken d => P d /\ taken = slot_occupied d pid (sql_text date) (sql_text time))
    E.
Proof.
  intros He. unfold isSlotTaken, Sql.select_slot.
  eapply triple_bind
    with (Q := fun rows d =>
                 P d /\ rows = filter (holds_slot pid (sql_text date) (sql_text time))
                                      (appointments d)).
  - apply triple_storage_call; [|assumption]. cbn. auto.
  - intros rows. apply triple_ret. intros d [Hd Hr]. split; [assumption|].
    rewrite Hr. apply filter_nonempty_existsb.
Qed.

Lemma select_appointment_reports (P E : DB -> Prop) p :
  (forall d, P d -> E d) ->
  triple P (Sql.select_appointment p)
    (fun rows d => P d /\ rows = filter (fun r => id_is p (Appointment.id r))
                                        (appointments d))
    E.
Proof.
  intros He. apply triple_checked_call; [|assumption]. cbn. auto.
Qed.

Lemma on_db_error_keeps (P : DB -> Prop) err :
  triple P (on_db_error err) (fun _ => P) P.
Proof.
  unfold on_db_error. eapply triple_bind.
  - apply triple_console_error with (Q := fun _ => P). auto.
  - intros ?. apply triple_ret. auto.
Qed.

(** Statements that touch no appointment. *)
Ltac patient_side :=
  first [apply call_keeps | apply checked_keeps]; [|auto];
  intros d Hd; eapply consistent_same_appointments; [| |exact Hd]; reflexivity.

Ltac keeps_step :=
  first [ apply triple_ret; solve [auto]
        | apply on_db_error_keeps
        | apply triple_console_log with (Q := fun _ => consistent); solve [auto]
        | apply triple_console_error with (Q := fun _ => consistent); solve [auto]
        | patient_side ].

Lemma get_patients_keeps :
  triple consistent get_patients (fun _ => consistent) consistent.
Proof.
  unfold get_patients, Sql.select_patients.
  eapply triple_try_catch; [|intros; keeps_step].
  eapply triple_bind; [keeps_step|]. intros rows.
  eapply triple_bind; [keeps_step|]. intros ?. keeps_step.
Qed.

Lemma post_patients_keeps body :
  triple consistent (post_patients body) (fun _ => consistent) consistent.
Proof.
  unfold post_patients, Sql.insert_patient.
  destruct (_ || _); [keeps_step|].
  eapply triple_bind; [keeps_step|]. intros i. keeps_step.
Qed.

Lemma get_patient_keeps i :
  triple consistent (get_patient i) (fun _ => consistent) consistent.
Proof.
  unfold get_patient, Sql.select_patient.
  eapply triple_try_catch; [|intros; keeps_step].
  destruct (invalid_id _); [keeps_step|].
  eapply triple_bind; [keeps_step|]. intros [|r rows]; keeps_step.
Qed.

Lemma put_patient_keeps i body :
  triple consistent (put_patient i body) (fun _ => consistent) consistent.
Proof.
  unfold put_patient, Sql.update_patient.
  eapply triple_try_catch; [|intros; keeps_step].
  eapply triple_bind with (Q := fun _ => consistent).
  { unfold destructure. destruct body; try keeps_step; apply triple_throw; auto. }
  intros b. destruct (invalid_id _); [keeps_step|].
  destruct (_ || _); [keeps_step|].
  eapply triple_bind; [keeps_step|]. intros n. destruct (n =? 0)%nat; keeps_step.
Qed.

Lemma delete_patient_keeps i :
  triple consistent (delete_patient i) (fun _ => consistent) consistent.
Proof.
  unfold delete_patient, Sql.delete_patient.
  eapply triple_try_catch; [|intros; keeps_step].
  destruct (invalid_id _); [keeps_step|].
  eapply triple_bind; [keeps_step|]. intros n. destruct (n =? 0)%nat; keeps_step.
Qed.

Lemma get_appointments_keeps :
  triple consistent get_appointments (fun _ => consistent) consistent.
Proof.
  unfold get_appointments, Sql.select_appointments.
  eapply triple_try_catch; [|intros; keeps_step].
  eapply triple_bind; [keeps_step|]. intros rows.
  eapply triple_bind; [keeps_step|]. intros ?. keeps_step.
Qed.

Lemma get_appointment_keeps i :
  triple consistent (get_appointment i) (fun _ => consistent) consistent.
Proof.
  unfold get_appointment, Sql.select_appointment.
  eapply triple_bind; [keeps_step|]. intros [|r rows]; keeps_step.
Qed.

Lemma delete_appointment_keeps i :
  triple consistent (delete_appointment i) (fun _ => consistent) consistent.
Proof.
  unfold delete_appointment, Sql.delete_appointment.
  eapply triple_bind with (Q := fun _ => consistent).
  - apply checked_keeps; [|auto]. intros d Hd. cbn.
    now apply delete_keeps_consistent.
  - intros n. destruct (n =? 0)%nat; keeps_step.
Qed.

Lemma post_appointments_keeps body :
  triple consistent (post_appointments body) (fun _ => consistent) consistent.
Proof.
  unfold post_appointments.
  set (b := js_or body (Obj [])).
  set (pid := int_of (get "PatientId" b)).
  set (D := get "AppointmentDate" b). set (T := get "AppointmentTime" b).
  destruct (_ || _); [keeps_step|].
  eapply triple_bind
    with (Q := fun ok d => consistent d /\ isValidDate D = inr ok).
  { apply triple_lift. intros d Hd. destruct (isValidDate D); auto. }
  intros [|]; cbn [negb]; [|apply triple_ret; tauto].
  eapply triple_bind
    with (Q := fun ok d => (consistent d /\ isValidDate D = inr true)
                           /\ isValidTime T = inr ok).
  { apply triple_lift. intros d Hd. destruct (isValidTime T); tauto. }
  intros [|]; cbn [negb]; [|apply triple_ret; tauto].
  destruct (_ || _); [apply triple_ret; tauto|].
  eapply triple_bind; [apply ensurePatientExists_keeps; tauto|].
  intros [|]; cbn [negb]; [|apply triple_ret; tauto].
  eapply triple_bind; [apply isSlotTaken_reports; tauto|].
  intros [|]; [apply triple_ret; tauto|].
  eapply triple_bind with (Q := fun _ => consistent); [|intros; keeps_step].
  unfold Sql.insert_appointment. apply triple_checked_call; [|tauto].
  intros d (((Hd & HD) & HT) & Hfree) _. cbn.
  apply insert_keeps_consistent; auto;
    [now apply validated_date|now apply validated_time].
Qed.

Lemma submitted_and_invalid_reports (P E : DB -> Prop) (r : regex) x :
  (forall d, P d -> E d) ->
  triple P (submitted_and_invalid (test r) x)
    (fun bad d => P d /\ (bad = false -> truthy x = false \/ test r x = inr true))
    E.
Proof.
  intros He. unfold submitted_and_invalid. destruct (truthy x).
  - eapply triple_bind with (Q := fun ok d => P d /\ test r x = inr ok).
    + apply triple_lift. intros d Hd. destruct (test r x); auto.
    + intros ok. apply triple_ret. intros d [Hd Hok]. split; [assumption|].
      destruct ok; [auto|discriminate].
  - apply triple_ret. auto.
Qed.

(** The date bound for the merged field: the validated submission, or
    the stored date. *)
Lemma merged_date x current :
  truthy x = false \/ isValidDate x = inr true ->
  test_anchored date_re current = true ->
  test_anchored date_re (sql_text (js_or x (DateObj current))) = true.
Proof.
  intros Hx Hc. unfold js_or. destruct (truthy x) eqn:Et.
  - destruct Hx as [|Hx]; [discriminate|]. now apply validated_date.
  - exact Hc.
Qed.

(** The time cell written for the merged field: that of the validated
    submission, or the stored cell again. *)
Lemma merged_time x current :
  truthy x = false \/ isValidTime x = inr true ->
  seconds_form current ->
  seconds_form (normal_time (sql_text (js_or x (Str current)))).
Proof.
  intros Hx Hc. unfold js_or. destruct (truthy x) eqn:Et.
  - destruct Hx as [|Hx]; [discriminate|].
    now apply normal_time_seconds, validated_time.
  - cbn [sql_text ToString]. now rewrite (seconds_form_normal _ Hc).
Qed.

Lemma strict_eq_str_text v s : strict_eq_str v s = true -> sql_text v = s.
Proof.
  destruct v; cbn; try discriminate. intros H. now apply String.eqb_eq.
Qed.

Lemma strict_eq_date_text v s : strict_eq_date v s = true -> sql_text v = s.
Proof.
  destruct v; cbn; try discriminate. intros H. now apply String.eqb_eq.
Qed.

Lemma put_appointment_keeps i body :
  triple consistent (put_appointment i body) (fun _ => consistent) consistent.
Proof.
  unfold put_appointment.
  eapply triple_bind; [apply select_appointment_reports; auto|].
  intros [|appt rest]; [apply triple_ret; tauto|].
  set (b := js_or body (Obj [])).
  set (D := get "AppointmentDate" b). set (T := get "AppointmentTime" b).
  set (R := get "Reason" b).
  eapply triple_bind;
    [apply (submitted_and_invalid_reports _ _ date_re D); tauto|].
  intros [|]; [apply triple_ret; tauto|].
  eapply triple_bind;
    [apply (submitted_and_invalid_reports _ _ time_re T); tauto|].
  intros [|]; [apply triple_ret; tauto|].
  eapply triple_bind; [apply isSlotTaken_reports; tauto|].
  intros taken.
  destruct (taken && negb _) eqn:Econf; [apply triple_ret; tauto|].
  eapply triple_bind with (Q := fun _ => consistent); [|intros; keeps_step].
  unfold Sql.update_appointment. apply triple_checked_call; [|tauto].
  intros d ((((Hd & Hsel) & HD) & HT) & Htaken) _. cbn.
  symmetry in Hsel.
  destruct (selected_row _ _ _ _ Hsel) as [Hin _].
  assert (Hwf : test_anchored date_re (Appointment.appointment_date appt) = true
                /\ seconds_form (Appointment.appointment_time appt)).
  { destruct Hd as (_ & _ & Hwf). unfold slots_well_formed in Hwf.
    rewrite Forall_forall in Hwf. now apply Hwf. }
  eapply update_keeps_consistent; eauto.
  - destruct taken; [right|left; now symmetry].
    cbn in Econf. apply negb_false_iff, andb_true_iff in Econf.
    destruct Econf as [E1 E2]. split.
    + now apply strict_eq_date_text.
    + rewrite (strict_eq_str_text _ _ E2). apply seconds_form_normal. tauto.
  - apply merged_date; tauto.
  - apply merged_time; tauto.
Qed.

Lemma handle_keeps r :
  triple consistent (handle r) (fun _ => consistent) consistent.
Proof.
  destruct r; cbn [handle].
  - apply get_patients_keeps.
  - apply post_patients_keeps.
  - apply get_patient_keeps.
  - apply put_patient_keeps.
  - apply delete_patient_keeps.
  - apply get_appointments_keeps.
  - apply post_appointments_keeps.
  - apply get_appointment_keeps.
  - apply put_appointment_keeps.
  - apply delete_appointment_keeps.
  - apply triple_ret. auto.
Qed.

Lemma serve_keeps rs w : consistent (db w) -> consistent (db (serve rs w)).
Proof.
  revert w. induction rs as [|r rs IH]; intros w Hw; [exact Hw|].
  cbn [serve]. apply IH. pose proof (handle_keeps r w Hw) as H.
  destruct (handle r w) as [[e|a] w']; exact H.
Qed.

Lemma startup_keeps :
  triple consistent startup (fun _ => consistent) consistent.
Proof.
  unfold startup, Sql.no_rows_touched, Sql.count_patients, Sql.insert_patient.
  apply triple_try_catch with (E' := consistent); [|intros; keeps_step].
  do 3 (eapply triple_bind; [keeps_step|]; intros ?).
  eapply triple_bind; [keeps_step|]. intros n.
  eapply triple_bind with (Q := fun _ => consistent); [|intros; keeps_step].
  destruct (n =? 0)%nat; [|keeps_step].
  eapply triple_bind; [keeps_step|]. intros ?. keeps_step.
Qed.

End Preservation.

(* ================================================================== *)
(** ** What the storage calls return when they are answered *)

Section Evaluation.



Lemma select_appointment_answered p n w :
  nan_refused p = None ->
  accepts (S n) (faults w) = true ->
  Sql.select_appointment p w = (inr (rows_with_id (db w) p), after_call w)
  /\ accepts n (faults (after_call w)) = true.
Proof.
  intros Hp H. unfold Sql.select_appointment.
  destruct (checked_call_answered (fun _ => nan_refused p)
              (fun d => (filter (fun r => id_is p (Appointment.id r)) (appointments d), d))
              n w Hp H) as [E Hn].
  rewrite E. split; [reflexivity|exact Hn].
Qed.

(** The statement that looks an appointment up under NaN is refused. *)
Lemma select_appointment_refused w :
  accepts 1 (faults w) = true ->
  Sql.select_appointment None w
  = (inl (DbError "Unknown column 'NaN' in 'where clause'"), after_call w).
Proof.
  intros H. unfold Sql.select_appointment.
  now rewrite (checked_call_refused _ _ _ w eq_refl H).
Qed.

Lemma selects_a_number (p : option Z) l appt rest :
  filter (fun r => id_is p (Appointment.id r)) l = appt :: rest ->
  nan_refused p = None.
Proof.
  intros H. destruct (selected_row _ _ _ _ H) as [_ ->]. reflexivity.
Qed.

Lemma answered_twice n w :
  accepts (S (S n)) (faults w) = true ->
  accepts 1 (faults w) = true /\ accepts (S n) (faults (after_call w)) = true.
Proof.
  intros H. cbn [after_call faults].
  destruct (faults w) as [|[m|] fs]; cbn in *; try discriminate; auto.
Qed.

End Evaluation.

(* ================================================================== *)
(** ** Creating an appointment *)

Section Create.

Variable body : jsval.
Variable w : World.

Local Notation PatientId := (field "PatientId" body).
Local Notation AppointmentDate := (field "AppointmentDate" body).
Local Notation AppointmentTime := (field "AppointmentTime" body).
Local Notation Reason := (field "Reason" body).






(** Past the four syntax checks the handler is its storage part. *)
Lemma create_after_validation :
  invalid_patient_ref PatientId = false ->
  isValidDate AppointmentDate = inr true ->
  isValidTime AppointmentTime = inr true ->
  reason_missing Reason = false ->
  post_appointments body w
  = (known <- ensurePatientExists (int_of PatientId) ;;
     if negb known then ret (Sent 404 (message "Patient not found"))
     else
       taken <- isSlotTaken (int_of PatientId) AppointmentDate AppointmentTime ;;
       if taken then ret (Sent 409 (message booked_message))
       else
         insertId <- Sql.insert_appointment (int_of PatientId) AppointmentDate
                       AppointmentTime (sql_text (trimmed Reason)) ;;
         ret (Sent 201
                (Obj [("id", Num insertId);
                      ("patient_id", PatientId);
                      ("appointment_date", AppointmentDate);
                      ("appointment_time", AppointmentTime);
                      ("reason", trimmed Reason);
                      ("message", Str "Appointment created successfully")]))) w.
Proof.
  intros H1 H2 H3 H4. unfold post_appointments.
  change (get "PatientId" (js_or body (Obj []))) with PatientId.
  change (get "AppointmentDate" (js_or body (Obj []))) with AppointmentDate.
  change (get "AppointmentTime" (js_or body (Obj []))) with AppointmentTime.
  change (get "Reason" (js_or body (Obj []))) with Reason.
  unfold invalid_patient_ref in H1. rewrite H1.
  unfold bind at 1, lift. rewrite H2. cbn [negb].
  unfold bind at 1. rewrite H3. cbn [negb].
  unfold reason_missing in H4. now rewrite H4.
Qed.




End Create.







(* ================================================================== *)
(** ** Updating an appointment *)

Section Update.

Variable params_id : string.
Variable body : jsval.
Variable w : World.

Local Notation id := (parseInt10 params_id) (only parsing).
Local Notation AppointmentDate := (field "AppointmentDate" body).
Local Notation AppointmentTime := (field "AppointmentTime" body).
Local Notation Reason := (field "Reason" body).

Lemma update_not_found :
  nan_refused id = None ->
  accepts 1 (faults w) = true ->
  rows_with_id (db w) id = [] ->
  put_appointment params_id body w
  = (inr (Sent 404 (message "Appointment not found")), after_call w).
Proof.
  intros Hp Ha Hr. unfold put_appointment.
  destruct (select_appointment_answered id 0 w Hp Ha) as [E _].
  rewrite (bind_returns _ _ _ _ _ E), Hr. reflexivity.
Qed.

(** An identity that is not a number: the lookup is refused and the
    handler, which guards nothing, raises. *)
Lemma update_refused :
  id = None ->
  accepts 1 (faults w) = true ->
  put_appointment params_id body w
  = (inl (DbError "Unknown column 'NaN' in 'where clause'"), after_call w).
Proof.
  intros Hp Ha. unfold put_appointment. rewrite Hp.
  now rewrite (bind_raises _ _ _ _ _ (select_appointment_refused w Ha)).
Qed.

Lemma check_passed (valid : jsval -> error + bool) v w0 :
  passes_update_check valid v ->
  submitted_and_invalid valid v w0 = (inr false, w0).
Proof.
  intros H. unfold submitted_and_invalid.
  destruct (truthy v) eqn:Et; [|reflexivity].
  destruct H as [H|H]; [congruence|].
  unfold bind, lift. now rewrite H.
Qed.

Variable appt : Appointment.row.
Variable rest : list Appointment.row.

Local Notation newDate :=
  (js_or AppointmentDate (DateObj (Appointment.appointment_date appt))).
Local Notation newTime :=
  (js_or AppointmentTime (Str (Appointment.appointment_time appt))).
Local Notation newReason := (merged_reason Reason (Appointment.reason appt)).

Hypothesis live : rows_with_id (db w) id = appt :: rest.
Hypothesis date_passes : passes_update_check isValidDate AppointmentDate.
Hypothesis time_passes : passes_update_check isValidTime AppointmentTime.





End Update.

Section Conflict.









End Conflict.
(* ================================================================== *)
(** ** The claims about updates *)














(* ================================================================== *)
(** ** Slot exclusivity *)





(* ================================================================== *)
(** ** Identities in the appointment routes *)

Lemma nonpositive_selects_nothing d z :
  z <= 0 -> Forall (fun r => 0 < Appointment.id r) (appointments d) ->
  rows_with_id d (Some z) = [].
Proof.
  intros Hz Hpos. unfold rows_with_id.
  induction (appointments d) as [|r l IH]; [reflexivity|].
  inversion Hpos as [|? ? Hr Hl]; subst. cbn.
  destruct (Z.eqb_spec (Appointment.id r) z); [lia|auto].
Qed.

Lemma delete_appointment_answered params_id w :
  nan_refused (parseInt10 params_id) = None ->
  accepts 1 (faults w) = true ->
  delete_appointment params_id w
  = (inr (if (List.length (rows_with_id (db w) (parseInt10 params_id)) =? 0)%nat
          then Sent 404 (message "Appointment not found")
          else Sent 200
                 (Obj [("AppointmentId", number_json (parseInt10 params_id));
                       ("Message", Str "Appointment deleted successfully")])),
     mkWorld
       (mkDB (patients (db w))
             (filter (fun r => negb (id_is (parseInt10 params_id) (Appointment.id r)))
                     (appointments (db w)))
             (next_patient_id (db w)) (next_appointment_id (db w)) (clock (db w)))
       (tl (faults w)) (console w)).
Proof.
  intros Hp Ha. unfold delete_appointment, Sql.delete_appointment.
  match goal with
  | |- bind (checked_call ?r ?q) _ _ = _ =>
      destruct (checked_call_answered r q 0 w Hp Ha) as [E _]
  end.
  rewrite (bind_returns _ _ _ _ _ E). cbn [fst snd]. unfold rows_with_id.
  now destruct (_ =? 0)%nat.
Qed.

(** C7 (the code departs from it): the three appointment routes that
    take an identity do not check it. On a non-positive identity such as
    0 (identities on record being positive) fetch, update and delete all
    answer 404, where the patient route answers 400 on the same
    identity. *)
Theorem C7_appointment_identity_unchecked
  (params_id : string) (z : Z) (body : jsval) (w : World) :
  parseInt10 params_id = Some z -> z <= 0 ->
  Forall (fun r => 0 < Appointment.id r) (appointments (db w)) ->
  accepts 1 (faults w) = true ->
  fst (get_appointment params_id w)
  = inr (Sent 404 (message "Appointment not found"))
  /\ fst (put_appointment params_id body w)
     = inr (Sent 404 (message "Appointment not found"))
  /\ fst (delete_appointment params_id w)
     = inr (Sent 404 (message "Appointment not found"))
  /\ fst (get_patient params_id w) = inr (Sent 400 (message "Invalid PatientId")).
Proof.
  intros Hp Hz Hpos Ha.
  pose proof (nonpositive_selects_nothing _ _ Hz Hpos) as Hnone.
  repeat split.
  - unfold get_appointment. rewrite Hp.
    destruct (select_appointment_answered (Some z) 0 w eq_refl Ha) as [E _].
    rewrite (bind_returns _ _ _ _ _ E), Hnone. reflexivity.
  - rewrite update_not_found; rewrite ?Hp; [reflexivity..|assumption|assumption].
  - rewrite delete_appointment_answered; rewrite ?Hp; [|reflexivity|assumption].
    cbn [fst]. now rewrite Hnone.
  - unfold get_patient, try_catch. rewrite Hp. cbn [invalid_id].
    destruct (Z.leb_spec z 0); [reflexivity|lia].
Qed.

(** C7 at identity 0 with one appointment on record. *)
Lemma C7_appointment_identity_unchecked_witness :
  let w := mkWorld (mkDB [Patient.mk 2 "Ann" None]
                         [Appointment.mk 1 2 "2025-08-20" "14:30:00" "checkup"
                            booked_at] 3 2 clock_now)
                   [] [] in
  fst (get_appointment "0" w) = inr (Sent 404 (message "Appointment not found"))
  /\ fst (put_appointment "0" (Obj []) w)
     = inr (Sent 404 (message "Appointment not found"))
  /\ fst (delete_appointment "0" w)
     = inr (Sent 404 (message "Appointment not found"))
  /\ fst (get_patient "0" w) = inr (Sent 400 (message "Invalid PatientId")).
Proof.
  cbv zeta.
  apply (C7_appointment_identity_unchecked "0" 0 (Obj [])
           (mkWorld (mkDB [Patient.mk 2 "Ann" None]
                          [Appointment.mk 1 2 "2025-08-20" "14:30:00" "checkup"
                             booked_at] 3 2 clock_now)
                    [] [])).
  - reflexivity.
  - lia.
  - repeat constructor.
  - reflexivity.
Defined.

(* ================================================================== *)
(** ** Storage failures *)

(** C8, as stated, fails: when the storage call of the patient listing
    is rejected, the reply carries the storage layer's own message next
    to the generic one; and the same rejection in the appointment fetch
    is not turned into a reply by the handler at all. *)
Lemma C8_storage_message_exposed :
  fst (get_patients (failing "connect ECONNREFUSED 10.0.0.5:3306" fresh))
  = inr (Sent 500 (Obj [("message", Str "Database error");
                        ("error", Str "connect ECONNREFUSED 10.0.0.5:3306")]))
  /\ fst (get_patients (failing "Access denied for user 'app'@'10.0.0.7'" fresh))
     <> fst (get_patients (failing "connect ECONNREFUSED 10.0.0.5:3306" fresh))
  /\ fst (get_appointment "1" (failing "connect ECONNREFUSED 10.0.0.5:3306" fresh))
     = inl (DbError "connect ECONNREFUSED 10.0.0.5:3306").
Proof.
  split; [reflexivity|]. split; [|reflexivity]. discriminate.
Qed.

(** C8, amended: in the operations that guard their storage call (list
    patients, fetch, update and delete a patient by identity, list
    appointments), a rejected storage call is answered 500 with the
    generic message "Database error" together with the message of the
    underlying error, the error is written to the console, and the
    tables are left as they were. *)
Theorem C8_guarded_storage_failure (msg : string) (w : World) :
  let reply := Sent 500 (Obj [("message", Str "Database error");
                              ("error", Str msg)]) in
  let after := mkWorld (db w) (faults w)
                 (console w ++ [Failure "DB Error:" (DbError msg)]) in
  get_patients (failing msg w) = (inr reply, after)
  /\ get_appointments (failing msg w) = (inr reply, after)
  /\ (forall params_id,
        invalid_id (parseInt10 params_id) = false ->
        get_patient params_id (failing msg w) = (inr reply, after)
        /\ delete_patient params_id (failing msg w) = (inr reply, after))
  /\ (forall params_id fields,
        invalid_id (parseInt10 params_id) = false ->
        truthy (lookup "name" fields) = true ->
        truthy (lookup "contact" fields) = true ->
        put_patient params_id (Obj fields) (failing msg w) = (inr reply, after)).
Proof.
  cbv zeta. split; [reflexivity|]. split; [reflexivity|]. split.
  - intros params_id H. split.
    + unfold get_patient, try_catch. rewrite H. reflexivity.
    + unfold delete_patient, try_catch. rewrite H. reflexivity.
  - intros params_id fields H Hn Hc. unfold put_patient, try_catch, bind.
    cbn [destructure ret get]. rewrite H, Hn, Hc. reflexivity.
Qed.

(** C8, amended, at a patient fetch whose storage call times out. *)
Lemma C8_guarded_storage_failure_witness :
  get_patient "1" (failing "connect ETIMEDOUT" fresh)
  = (inr (Sent 500 (Obj [("message", Str "Database error");
                         ("error", Str "connect ETIMEDOUT")])),
     mkWorld (db fresh) (faults fresh)
       (console fresh ++ [Failure "DB Error:" (DbError "connect ETIMEDOUT")])).
Proof.
  destruct (C8_guarded_storage_failure "connect ETIMEDOUT" fresh)
    as (_ & _ & H & _).
  apply (H "1"). reflexivity.
Defined.

(* ================================================================== *)
(** ** The end-to-end scenario *)

(** After start-up on an empty database: Ann becomes patient 2, her
    appointment gets identity 1, the same request again is refused, the
    time is moved to 15:00 (the fetch shows the date as the Date object
    and the time with seconds), resubmitting the current date is refused,
    the patient cannot be deleted while the appointment refers to her,
    the record is deleted and is then gone. *)
Example scenario :
  let ann_visit :=
    Obj [("PatientId", Num 2); ("AppointmentDate", Str "2025-08-20");
         ("AppointmentTime", Str "14:30"); ("Reason", Str "checkup")] in
  let w0 := snd (startup fresh) in
  let w1 := snd (handle (POST_patients (Obj [("name", Str "Ann")])) w0) in
  let w2 := snd (handle (POST_appointments ann_visit) w1) in
  let w3 := snd (handle (PUT_appointment "1" (Obj [("AppointmentTime", Str "15:00")])) w2) in
  let w4 := snd (handle (DELETE_appointment "1") w3) in
  option_map Patient.id (hd_error (patients (db w0))) = Some 1
  /\ option_map status_of
       (match fst (handle (POST_appointments ann_visit) w1) with
        | inr r => Some r | inl _ => None end) = Some 201
  /\ fst (handle (POST_appointments ann_visit) w2)
     = inr (Sent 409 (message booked_message))
  /\ fst (handle (GET_appointment "1") w3)
     = inr (Sent 200 (Obj [("AppointmentId", Num 1); ("PatientId", Num 2);
                           ("AppointmentDate", DateObj "2025-08-20");
                           ("AppointmentTime", Str "15:00:00");
                           ("Reason", Str "checkup")]))
  /\ fst (handle (PUT_appointment "1" (Obj [("AppointmentDate", Str "2025-08-20")])) w3)
     = inr (Sent 409 (message booked_message))
  /\ reply_status (fst (handle (DELETE_patient "2") w3)) = Some 500
  /\ fst (handle (GET_appointment "1") w4)
     = inr (Sent 404 (message "Appointment not found"))
  /\ reply_status (fst (handle (DELETE_patient "2") w4)) = Some 200.
Proof. cbv zeta. repeat split. Qed.

(* ================================================================== *)
(** ** Requests that do not succeed *)

Section Unsuccessful.

Lemma db_eta d :
  mkDB (patients d) (appointments d) (next_patient_id d) (next_appointment_id d)
    (clock d) = d.
Proof. now destruct d. Qed.

Lemma none_selected_map {X} (p : X -> bool) (f : X -> X) l :
  List.length (filter p l) = 0%nat ->
  map (fun r => if p r then f r else r) l = l.
Proof.
  induction l as [|x l IH]; cbn; [reflexivity|].
  destruct (p x); cbn; [discriminate|]. intros H. now rewrite IH.
Qed.

Lemma none_selected_filter {X} (p : X -> bool) l :
  List.length (filter p l) = 0%nat -> filter (fun r => negb (p r)) l = l.
Proof.
  induction l as [|x l IH]; cbn; [reflexivity|].
  destruct (p x); cbn; [discriminate|]. intros H. now rewrite IH.
Qed.

Lemma isSlotTaken_keeps (P E : DB -> Prop) pid date time :
  (forall d, P d -> E d) ->
  triple P (isSlotTaken pid date time) (fun _ => P) E.
Proof.
  intros He.
  apply triple_weaken
    with (P' := P) (E' := E)
         (Q' := fun taken d =>
                  P d /\ taken = slot_occupied d pid (sql_text date) (sql_text time));
    [now apply isSlotTaken_reports|auto|tauto|auto].
Qed.

Lemma submitted_and_invalid_keeps (P E : DB -> Prop) (r : regex) x :
  (forall d, P d -> E d) ->
  triple P (submitted_and_invalid (test r) x) (fun _ => P) E.
Proof.
  intros He.
  apply triple_weaken
    with (P' := P) (E' := E)
         (Q' := fun bad d =>
                  P d /\ (bad = false -> truthy x = false \/ test r x = inr true));
    [now apply submitted_and_invalid_reports|auto|tauto|auto].
Qed.

Variable d0 : DB.

Local Notation unchanged_unless_success := (unchanged_unless_success d0).

Ltac still :=
  first [ apply triple_ret; intros ? <- ?; reflexivity
        | apply triple_ret; intros; discriminate
        | apply call_keeps; [intros ? <-; reflexivity|auto]
        | apply checked_keeps; [intros ? <-; reflexivity|auto] ].

Lemma on_db_error_unchanged err : unchanged_unless_success (on_db_error err).
Proof.
  unfold unchanged_unless_success, on_db_error. eapply triple_bind.
  - apply triple_console_error with (Q := fun _ => eq d0). auto.
  - intros ?. still.
Qed.

Lemma get_patients_unchanged : unchanged_unless_success get_patients.
Proof.
  unfold unchanged_unless_success, get_patients, Sql.select_patients.
  apply triple_try_catch with (E' := eq d0); [|apply on_db_error_unchanged].
  eapply triple_bind; [still|]. intros rows.
  eapply triple_bind;
    [apply triple_console_log with (Q := fun _ => eq d0); auto|].
  intros ?. still.
Qed.

Lemma get_appointments_unchanged : unchanged_unless_success get_appointments.
Proof.
  unfold unchanged_unless_success, get_appointments, Sql.select_appointments.
  apply triple_try_catch with (E' := eq d0); [|apply on_db_error_unchanged].
  eapply triple_bind; [still|]. intros rows.
  eapply triple_bind;
    [apply triple_console_log with (Q := fun _ => eq d0); auto|].
  intros ?. still.
Qed.

Lemma get_patient_unchanged i : unchanged_unless_success (get_patient i).
Proof.
  unfold unchanged_unless_success, get_patient, Sql.select_patient.
  apply triple_try_catch with (E' := eq d0); [|apply on_db_error_unchanged].
  destruct (invalid_id _); [still|].
  eapply triple_bind; [still|]. intros [|r rows]; still.
Qed.

Lemma get_appointment_unchanged i : unchanged_unless_success (get_appointment i).
Proof.
  unfold unchanged_unless_success, get_appointment, Sql.select_appointment.
  eapply triple_bind; [still|]. intros [|r rows]; still.
Qed.

Lemma post_patients_unchanged body : unchanged_unless_success (post_patients body).
Proof.
  unfold unchanged_unless_success, post_patients, Sql.insert_patient.
  destruct (_ || _); [still|].
  eapply triple_bind with (Q := fun _ _ => True).
  - apply triple_checked_call; auto.
  - intros i. apply triple_ret. intros; discriminate.
Qed.

Lemma put_patient_unchanged i body : unchanged_unless_success (put_patient i body).
Proof.
  unfold unchanged_unless_success, put_patient, Sql.update_patient.
  apply triple_try_catch with (E' := eq d0); [|apply on_db_error_unchanged].
  eapply triple_bind with (Q := fun _ => eq d0).
  { unfold destructure. destruct body;
      first [apply triple_throw; auto | apply triple_ret; auto]. }
  intros b. destruct (invalid_id _); [still|]. destruct (_ || _); [still|].
  eapply triple_bind with (Q := fun n d => n = 0%nat -> d = d0).
  - apply triple_checked_call; [|auto]. intros d <- _ Hn. cbn in *.
    rewrite none_selected_map by assumption. apply db_eta.
  - intros n. destruct (Nat.eqb_spec n 0).
    + apply triple_ret. auto.
    + apply triple_ret. intros; discriminate.
Qed.

Lemma delete_patient_unchanged i : unchanged_unless_success (delete_patient i).
Proof.
  unfold unchanged_unless_success, delete_patient, Sql.delete_patient.
  apply triple_try_catch with (E' := eq d0); [|apply on_db_error_unchanged].
  destruct (invalid_id _); [still|].
  eapply triple_bind with (Q := fun n d => n = 0%nat -> d = d0).
  - apply triple_checked_call; [|auto]. intros d <- _ Hn. cbn in *.
    rewrite none_selected_filter by assumption. apply db_eta.
  - intros n. destruct (Nat.eqb_spec n 0).
    + apply triple_ret. auto.
    + apply triple_ret. intros; discriminate.
Qed.

Lemma delete_appointment_unchanged i :
  unchanged_unless_success (delete_appointment i).
Proof.
  unfold unchanged_unless_success, delete_appointment, Sql.delete_appointment.
  eapply triple_bind with (Q := fun n d => n = 0%nat -> d = d0).
  - apply triple_checked_call; [|auto]. intros d <- _ Hn. cbn in *.
    rewrite none_selected_filter by assumption. apply db_eta.
  - intros n. destruct (Nat.eqb_spec n 0).
    + apply triple_ret. auto.
    + apply triple_ret. intros; discriminate.
Qed.

Lemma post_appointments_unchanged body :
  unchanged_unless_success (post_appointments body).
Proof.
  unfold unchanged_unless_success, post_appointments.
  destruct (_ || _); [still|].
  eapply triple_bind with (Q := fun _ => eq d0);
    [apply triple_lift; intros d <-; now destruct (isValidDate _)|].
  intros [|]; cbn [negb]; [|still].
  eapply triple_bind with (Q := fun _ => eq d0);
    [apply triple_lift; intros d <-; now destruct (isValidTime _)|].
  intros [|]; cbn [negb]; [|still].
  destruct (_ || _); [still|].
  eapply triple_bind; [apply ensurePatientExists_keeps; auto|].
  intros [|]; cbn [negb]; [|still].
  eapply triple_bind; [apply isSlotTaken_keeps; auto|].
  intros [|]; [still|].
  eapply triple_bind with (Q := fun _ _ => True).
  - apply triple_checked_call; auto.
  - intros i. apply triple_ret. intros; discriminate.
Qed.

Lemma put_appointment_unchanged i body :
  unchanged_unless_success (put_appointment i body).
Proof.
  unfold unchanged_unless_success, put_appointment, Sql.select_appointment.
  eapply triple_bind; [still|]. intros [|appt rest]; [still|].
  eapply triple_bind;
    [apply (submitted_and_invalid_keeps (eq d0) (eq d0)); auto|].
  intros [|]; [still|].
  eapply triple_bind;
    [apply (submitted_and_invalid_keeps (eq d0) (eq d0)); auto|].
  intros [|]; [still|].
  eapply triple_bind; [apply isSlotTaken_keeps; auto|].
  intros taken. destruct (taken && _); [still|].
  eapply triple_bind with (Q := fun _ _ => True).
  - apply triple_checked_call; auto.
  - intros ?. apply triple_ret. intros; discriminate.
Qed.

Lemma handle_unchanged r : unchanged_unless_success (handle r).
Proof.
  destruct r; cbn [handle].
  - apply get_patients_unchanged.
  - apply post_patients_unchanged.
  - apply get_patient_unchanged.
  - apply put_patient_unchanged.
  - apply delete_patient_unchanged.
  - apply get_appointments_unchanged.
  - apply post_appointments_unchanged.
  - apply get_appointment_unchanged.
  - apply put_appointment_unchanged.
  - apply delete_appointment_unchanged.
  - unfold unchanged_unless_success, get_root. still.
Qed.

End Unsuccessful.

(** X1: a request that is not answered 200 or 201 (it is answered 4xx
    or 500, or the handler raises) leaves both tables and both counters
    exactly as they were. *)
Theorem unsuccessful_request_changes_nothing (r : request) (w : World) :
  succeeded (fst (handle r w)) = false -> db (snd (handle r w)) = db w.
Proof.
  intros H. pose proof (handle_unchanged (db w) r w eq_refl) as Ht.
  destruct (handle r w) as [[e|a] w']; cbn in *.
  - now symmetry.
  - now apply Ht.
Qed.

(** X1 at a create request for a slot that is held. *)
Lemma unsuccessful_request_changes_nothing_witness :
  let w := mkWorld (mkDB [Patient.mk 2 "Ann" None]
                         [Appointment.mk 1 2 "2025-08-20" "14:30:00" "checkup"
                            booked_at] 3 2 clock_now)
                   [] [] in
  db (snd (handle (POST_appointments
                     (Obj [("PatientId", Num 2); ("AppointmentDate", Str "2025-08-20");
                           ("AppointmentTime", Str "14:30"); ("Reason", Str "again")]))
                  w)) = db w.
Proof.
  cbv zeta.
  apply (unsuccessful_request_changes_nothing
           (POST_appointments
              (Obj [("PatientId", Num 2); ("AppointmentDate", Str "2025-08-20");
                    ("AppointmentTime", Str "14:30"); ("Reason", Str "again")]))).
  reflexivity.
Defined.

(* ================================================================== *)
(** ** The two tables are written by their own routes only *)

(** One step of a proof that a handler keeps a property [P] of the
    tables whatever happens; [obligation] settles what each storage call
    does to [P]. *)
Ltac keeps_with P obligation :=
  repeat
    match goal with
    | |- triple _ (ret _) _ _ => apply triple_ret; solve [auto]
    | |- triple _ (throw _) _ _ => apply triple_throw; solve [auto]
    | |- triple _ (lift ?r) _ _ =>
        apply triple_lift; intros; destruct r; solve [auto]
    | |- triple _ (console_log _ _) _ _ =>
        apply triple_console_log; solve [auto]
    | |- triple _ (console_error _ _) _ _ =>
        apply triple_console_error; solve [auto]
    | |- triple _ (storage_call _) _ _ =>
        apply triple_storage_call; [cbn; obligation|solve [auto]]
    | |- triple _ (checked_call _ _) _ _ =>
        apply triple_checked_call; [cbn; obligation|solve [auto]]
    | |- triple _ (bind _ _) _ _ =>
        eapply triple_bind with (Q := fun _ => P); [|intros ?]
    | |- triple _ (try_catch _ _) _ _ =>
        apply triple_try_catch with (E' := P); [|intros ?]
    | |- triple _ (if ?b then _ else _) _ _ => destruct b eqn:?
    | |- triple _ (match ?x with _ => _ end) _ _ => destruct x eqn:?
    end.

Ltac open_handlers :=
  unfold handle, get_patients, post_patients, get_patient, put_patient,
    delete_patient, get_appointments, post_appointments, get_appointment,
    put_appointment, delete_appointment, get_root, startup, on_db_error,
    ensurePatientExists, isSlotTaken, submitted_and_invalid, destructure,
    Sql.select_patients, Sql.insert_patient, Sql.select_patient,
    Sql.update_patient, Sql.delete_patient, Sql.select_appointments,
    Sql.select_slot, Sql.insert_appointment, Sql.select_appointment,
    Sql.update_appointment, Sql.delete_appointment, Sql.no_rows_touched,
    Sql.count_patients.

Section Frames.

Variable d0 : DB.


Lemma appointment_routes_keep_patients r :
  on_appointments r = true ->
  triple (same_patients d0) (handle r) (fun _ => same_patients d0) (same_patients d0).
Proof.
  intros Hr. destruct r; try discriminate; open_handlers;
    unfold same_patients;
    keeps_with (fun d => patients d = patients d0
                         /\ next_patient_id d = next_patient_id d0)
               ltac:(solve [auto]).
Qed.

Lemma patient_routes_keep_appointments r :
  on_patients r = true ->
  triple (same_appointments d0) (handle r) (fun _ => same_appointments d0)
    (same_appointments d0).
Proof.
  intros Hr. destruct r; try discriminate; open_handlers;
    unfold same_appointments;
    keeps_with (fun d => appointments d = appointments d0
                         /\ next_appointment_id d = next_appointment_id d0)
               ltac:(solve [auto]).
Qed.

End Frames.

(** X2: a request on an [/appointments] route never changes the patient
    table or its counter, and a request on a [/patients] route never
    changes the appointment table or its counter, whatever the request
    holds and however it ends. *)
Theorem routes_write_their_own_table (r : request) (w : World) :
  (on_appointments r = true ->
   patients (db (snd (handle r w))) = patients (db w)
   /\ next_patient_id (db (snd (handle r w))) = next_patient_id (db w))
  /\ (on_patients r = true ->
      appointments (db (snd (handle r w))) = appointments (db w)
      /\ next_appointment_id (db (snd (handle r w))) = next_appointment_id (db w)).
Proof.
  split; intros Hr.
  - pose proof (appointment_routes_keep_patients (db w) r Hr w (conj eq_refl eq_refl))
      as H.
    destruct (handle r w) as [[e|a] w']; exact H.
  - pose proof (patient_routes_keep_appointments (db w) r Hr w (conj eq_refl eq_refl))
      as H.
    destruct (handle r w) as [[e|a] w']; exact H.
Qed.

(** X2 at the deletion of a patient who has an appointment: the
    appointment stays. *)
Lemma routes_write_their_own_table_witness :
  let w := mkWorld (mkDB [Patient.mk 2 "Ann" None]
                         [Appointment.mk 1 2 "2025-08-20" "14:30:00" "checkup"
                            booked_at] 3 2 clock_now)
                   [] [] in
  appointments (db (snd (handle (DELETE_patient "2") w)))
  = [Appointment.mk 1 2 "2025-08-20" "14:30:00" "checkup" booked_at]
  /\ next_appointment_id (db (snd (handle (DELETE_patient "2") w))) = 2.
Proof.
  cbv zeta.
  apply (routes_write_their_own_table (DELETE_patient "2")
           (mkWorld (mkDB [Patient.mk 2 "Ann" None]
                          [Appointment.mk 1 2 "2025-08-20" "14:30:00" "checkup"
                             booked_at] 3 2 clock_now)
                    [] [])).
  reflexivity.
Defined.

(* ================================================================== *)
(** ** Which routes answer when storage fails *)


(** X3: the five routes that guard their storage call (list patients,
    list appointments, fetch, update and delete a patient) always answer,
    whatever the request holds and whatever the storage layer does: the
    lists with 200 or 500, the by-identity routes with 200, 400, 404 or
    500. They never raise. *)
Theorem guarded_routes_always_answer (w : World) :
  (exists s, reply_status (fst (get_patients w)) = Some s /\ In s [200; 500])
  /\ (exists s, reply_status (fst (get_appointments w)) = Some s /\ In s [200; 500])
  /\ (forall params_id,
        exists s, reply_status (fst (get_patient params_id w)) = Some s
                  /\ In s [200; 400; 404; 500])
  /\ (forall params_id body,
        exists s, reply_status (fst (put_patient params_id body w)) = Some s
                  /\ In s [200; 400; 404; 500])
  /\ (forall params_id,
        exists s, reply_status (fst (delete_patient params_id w)) = Some s
                  /\ In s [200; 400; 404; 500]).
Proof.
  assert (Hcall : forall {A} (q : DB -> A * DB),
             (exists e w', storage_call q w = (inl e, w'))
             \/ (exists w', storage_call q w = (inr (fst (q (db w))), w'))).
  { intros A q. unfold storage_call.
    destruct (faults w) as [|[m|] fs]; [right|left|right];
      try (destruct (q (db w)); cbn; eauto); eauto. }
  assert (Hcheck : forall {A} refusal (q : DB -> A * DB),
             (exists e w', checked_call refusal q w = (inl e, w'))
             \/ (exists w', checked_call refusal q w = (inr (fst (q (db w))), w'))).
  { intros A refusal q. unfold checked_call.
    destruct (faults w) as [|[m|] fs]; try (left; eauto; fail);
      (destruct (refusal (db w)); [left; eauto|right]);
      destruct (q (db w)); cbn; eauto. }
  split; [|split; [|split; [|split]]].
  - unfold get_patients, try_catch, bind, Sql.select_patients.
    destruct (Hcall _ (fun d => (order_by Patient.id (patients d), d)))
      as [(e & w' & ->)|(w' & ->)]; cbn; eexists; (split; [reflexivity|cbn; auto]).
  - unfold get_appointments, try_catch, bind, Sql.select_appointments.
    destruct (Hcall _ (fun d => (order_by Appointment.patient_id (appointments d), d)))
      as [(e & w' & ->)|(w' & ->)]; cbn; eexists; (split; [reflexivity|cbn; auto]).
  - intros params_id. unfold get_patient, try_catch, bind, Sql.select_patient.
    destruct (invalid_id (parseInt10 params_id));
      [cbn; eexists; split; [reflexivity|cbn; auto]|].
    match goal with
    | |- context [checked_call ?r ?q w] =>
        destruct (Hcheck _ r q) as [(e & w' & ->)|(w' & ->)]
    end; cbn [fst snd].
    + cbn; eexists; split; [reflexivity|cbn; auto].
    + destruct (filter _ _); cbn; eexists; (split; [reflexivity|cbn; auto]).
  - intros params_id body. unfold put_patient, try_catch, bind, Sql.update_patient.
    destruct (destructure body w) as [[e|b] w0] eqn:Eb.
    { cbn; eexists; split; [reflexivity|cbn; auto]. }
    assert (w0 = w)
      by (destruct body; unfold destructure, ret, throw in Eb; congruence).
    subst w0.
    destruct (invalid_id (parseInt10 params_id));
      [cbn; eexists; split; [reflexivity|cbn; auto]|].
    destruct (_ || _); [cbn; eexists; split; [reflexivity|cbn; auto]|].
    match goal with
    | |- context [checked_call ?r ?q w] =>
        destruct (Hcheck _ r q) as [(e & w' & ->)|(w' & ->)]
    end; cbn [fst snd].
    + cbn; eexists; split; [reflexivity|cbn; auto].
    + destruct (_ =? 0)%nat; cbn; eexists; (split; [reflexivity|cbn; auto]).
  - intros params_id. unfold delete_patient, try_catch, bind, Sql.delete_patient.
    destruct (invalid_id (parseInt10 params_id));
      [cbn; eexists; split; [reflexivity|cbn; auto]|].
    match goal with
    | |- context [checked_call ?r ?q w] =>
        destruct (Hcheck _ r q) as [(e & w' & ->)|(w' & ->)]
    end; cbn [fst snd].
    + cbn; eexists; split; [reflexivity|cbn; auto].
    + destruct (_ =? 0)%nat; cbn; eexists; (split; [reflexivity|cbn; auto]).
Qed.

(** X4: the routes without a guard (create patient, and create, fetch,
    update and delete an appointment) raise when their first storage call
    is rejected: the handler sends no answer, writes nothing to the
    console and leaves the tables as they were. *)
Theorem unguarded_routes_raise_on_rejection (msg : string) (w : World) :
  let raised := (inl (DbError msg) : error + response,
                 mkWorld (db w) (faults w) (console w)) in
  (forall params_id, get_appointment params_id (failing msg w) = raised)
  /\ (forall params_id body, put_appointment params_id body (failing msg w) = raised)
  /\ (forall params_id, delete_appointment params_id (failing msg w) = raised)
  /\ (forall body, invalid_name (field "name" body) = false ->
                   post_patients body (failing msg w) = raised)
  /\ (forall body,
        invalid_patient_ref (field "PatientId" body) = false ->
        isValidDate (field "AppointmentDate" body) = inr true ->
        isValidTime (field "AppointmentTime" body) = inr true ->
        reason_missing (field "Reason" body) = false ->
        post_appointments body (failing msg w) = raised).
Proof.
  cbv zeta. split; [|split; [|split; [|split]]]; try reflexivity.
  - intros body H. unfold post_patients.
    unfold invalid_name, field in H. now rewrite H.
  - intros body H1 H2 H3 H4.
    now rewrite create_after_validation.
Qed.

(** X4 at a patient creation and an appointment fetch. *)
Lemma unguarded_routes_raise_on_rejection_witness :
  post_patients (Obj [("name", Str "Ann")]) (failing "read ECONNRESET" fresh)
  = (inl (DbError "read ECONNRESET"),
     mkWorld (db fresh) (faults fresh) (console fresh)).
Proof.
  destruct (unguarded_routes_raise_on_rejection "read ECONNRESET" fresh)
    as (_ & _ & _ & H & _).
  apply (H (Obj [("name", Str "Ann")])). reflexivity.
Defined.

(* ================================================================== *)
(** ** Patients: create, update, delete, then fetch *)

Section Patients.

Lemma try_catch_returns {A} (m : M A) (h : error -> M A) w a w' :
  m w = (inr a, w') -> try_catch m h w = (inr a, w').
Proof. intros H. unfold try_catch. now rewrite H. Qed.

Lemma try_catch_raises {A} (m : M A) (h : error -> M A) w e w' :
  m w = (inl e, w') -> try_catch m h w = h e w'.
Proof. intros H. unfold try_catch. now rewrite H. Qed.


Lemma trim_start_empty s : trim_start s = EmptyString -> trim s = EmptyString.
Proof. unfold trim. now intros ->. Qed.


Lemma get_patient_answered params_id z w :
  parseInt10 params_id = Some z -> 0 < z ->
  accepts 1 (faults w) = true ->
  get_patient params_id w
  = (inr (match patients_with_id (db w) (Some z) with
          | [] => Sent 404 (message "Patient not found")
          | r :: _ => Sent 200 (patient_details_json r)
          end), after_call w).
Proof.
  intros Hp Hz Ha. unfold get_patient. rewrite Hp. cbn [invalid_id].
  destruct (Z.leb_spec z 0); [lia|].
  apply try_catch_returns. unfold Sql.select_patient.
  match goal with
  | |- bind (checked_call ?r ?q) _ _ = _ =>
      destruct (checked_call_answered r q 0 w eq_refl Ha) as [E _]
  end.
  rewrite (bind_returns _ _ _ _ _ E). cbn [fst snd]. unfold patients_with_id.
  now destruct (filter _ _).
Qed.


Lemma deleted_patient_unselected (l : list Patient.row) z :
  filter (fun r => id_is (Some z) (Patient.id r))
    (filter (fun r => negb (id_is (Some z) (Patient.id r))) l) = [].
Proof.
  induction l as [|r l IH]; [reflexivity|]. cbn.
  destruct (Z.eqb_spec (Patient.id r) z) as [Hr|Hr]; cbn; [assumption|].
  destruct (Z.eqb_spec (Patient.id r) z); [contradiction|assumption].
Qed.


(** Whether the foreign key stands in the way of deleting a patient. *)
Lemma referenced_iff d z :
  Sql.referenced d (Some z)
  = negb (List.length (patients_with_id d (Some z)) =? 0)%nat
    && has_appointments d z.
Proof.
  unfold Sql.referenced, patients_with_id, has_appointments. f_equal.
  rewrite <- filter_nonempty_existsb.
  now destruct (filter _ _).
Qed.

End Patients.





(** X7: deleting a patient. With a positive identity and the storage
    layer answering: an identity not on record is answered 404; a
    patient on record to whom no appointment refers is answered 200 and
    is then unknown (a fetch is answered 404), the appointment table
    being as it was; a patient on record to whom an appointment refers
    is not deleted: the foreign key makes the server refuse, the answer
    is 500 "Database error" with the server's message, and both tables
    are as they were. *)
Theorem patient_delete_then_fetch (params_id : string) (z : Z) (w : World) :
  parseInt10 params_id = Some z -> 0 < z ->
  accepts 2 (faults w) = true ->
  let w' := snd (delete_patient params_id w) in
  (patients_with_id (db w) (Some z) = [] ->
   fst (delete_patient params_id w) = inr (Sent 404 (message "Patient not found")))
  /\ (patients_with_id (db w) (Some z) <> [] ->
      has_appointments (db w) z = false ->
      fst (delete_patient params_id w)
      = inr (Sent 200 (message "Patient deleted successfully"))
      /\ known_patient (db w') z = false
      /\ fst (get_patient params_id w') = inr (Sent 404 (message "Patient not found"))
      /\ appointments (db w') = appointments (db w))
  /\ (patients_with_id (db w) (Some z) <> [] ->
      has_appointments (db w) z = true ->
      (exists detail,
          fst (delete_patient params_id w)
          = inr (Sent 500 (Obj [("message", Str "Database error");
                                ("error", Str detail)])))
      /\ db w' = db w
      /\ known_patient (db w') z = true).
Proof.
  intros Hp Hz Ha. cbv zeta.
  destruct (answered_twice _ _ Ha) as [Ha1 Ha2].
  assert (Hfree : Sql.referenced (db w) (Some z) = false ->
            delete_patient params_id w
            = (inr (if (List.length (patients_with_id (db w) (Some z)) =? 0)%nat
                    then Sent 404 (message "Patient not found")
                    else Sent 200 (message "Patient deleted successfully")),
               mkWorld
                 (mkDB (filter (fun r => negb (id_is (Some z) (Patient.id r)))
                               (patients (db w)))
                       (appointments (db w)) (next_patient_id (db w))
                       (next_appointment_id (db w)) (clock (db w)))
                 (tl (faults w)) (console w))).
  { intros Href. unfold delete_patient. apply try_catch_returns. rewrite Hp.
    cbn [invalid_id]. destruct (Z.leb_spec z 0); [lia|].
    unfold Sql.delete_patient.
    match goal with
    | |- bind (checked_call ?r ?q) _ _ = _ =>
        assert (Hr : r (db w) = None) by (cbv beta; cbn [nan_refused]; now rewrite Href);
        destruct (checked_call_answered r q 0 w Hr Ha1) as [E _]
    end.
    rewrite (bind_returns _ _ _ _ _ E). cbn [fst snd]. unfold patients_with_id.
    now destruct (_ =? 0)%nat. }
  assert (Hheld : Sql.referenced (db w) (Some z) = true ->
            delete_patient params_id w
            = (inr (Sent 500 (Obj [("message", Str "Database error");
                                   ("error", Str parent_message)])),
               mkWorld (db w) (tl (faults w))
                 (console w ++ [Failure "DB Error:" (DbError parent_message)]))).
  { intros Href. unfold delete_patient. rewrite Hp. cbn [invalid_id].
    destruct (Z.leb_spec z 0); [lia|].
    unfold Sql.delete_patient.
    match goal with
    | |- try_catch (bind (checked_call ?r ?q) _) _ _ = _ =>
        assert (Hr : r (db w) = Some (DbError parent_message))
          by (cbv beta; cbn [nan_refused]; now rewrite Href);
        pose proof (checked_call_refused r q _ w Hr Ha1) as E
    end.
    rewrite (try_catch_raises _ _ _ _ _ (bind_raises _ _ _ _ _ E)). reflexivity. }
  rewrite referenced_iff in Hfree, Hheld.
  split; [|split].
  - intros Hnone. rewrite Hfree by (now rewrite Hnone). now rewrite Hnone.
  - intros Hsome Hno. rewrite Hfree by (rewrite Hno; apply andb_false_r).
    cbn [fst snd].
    pose proof (deleted_patient_unselected (patients (db w)) z) as Hgone.
    repeat split.
    + destruct (patients_with_id (db w) (Some z)); [contradiction|reflexivity].
    + unfold known_patient. cbn [db patients].
      rewrite <- filter_nonempty_existsb.
      change (fun r => Patient.id r =? z)
        with (fun r => id_is (Some z) (Patient.id r)).
      now rewrite Hgone.
    + rewrite (get_patient_answered params_id z); try assumption.
      unfold patients_with_id. cbn [fst db patients]. now rewrite Hgone.
  - intros Hsome Hyes.
    rewrite Hheld
      by (rewrite Hyes; destruct (patients_with_id (db w) (Some z));
          [contradiction|reflexivity]).
    cbn [fst snd db]. split; [eauto|]. split; [reflexivity|].
    unfold known_patient. rewrite <- filter_nonempty_existsb.
    change (fun r => Patient.id r =? z)
      with (fun r => id_is (Some z) (Patient.id r)).
    fold (patients_with_id (db w) (Some z)).
    now destruct (patients_with_id (db w) (Some z)).
Qed.

(** X7 at a patient with an appointment: she stays on record. *)
Lemma patient_delete_then_fetch_witness :
  let w := mkWorld (mkDB [Patient.mk 2 "Ann" None]
                         [Appointment.mk 1 2 "2025-08-20" "14:30:00" "checkup"
                            booked_at] 3 2 clock_now)
                   [] [] in
  reply_status (fst (delete_patient "2" w)) = Some 500
  /\ db (snd (delete_patient "2" w)) = db w
  /\ known_patient (db (snd (delete_patient "2" w))) 2 = true.
Proof.
  cbv zeta.
  destruct (patient_delete_then_fetch "2" 2
              (mkWorld (mkDB [Patient.mk 2 "Ann" None]
                             [Appointment.mk 1 2 "2025-08-20" "14:30:00" "checkup"
                                booked_at] 3 2 clock_now)
                       [] []) eq_refl eq_refl eq_refl) as (_ & _ & H).
  destruct H as ((detail & E) & Hdb & Hk); [discriminate|reflexivity|].
  split; [|split; [exact Hdb|exact Hk]].
  rewrite E. reflexivity.
Defined.

(** ** Appointments: create, update, delete, then fetch *)

Section Appointments.

Lemma accepts_tl n fs : accepts (S n) fs = true -> accepts n (tl fs) = true.
Proof.
  destruct fs as [|[m|] fs]; cbn; try discriminate; auto. now destruct n.
Qed.

Lemma get_appointment_answered params_id w :
  nan_refused (parseInt10 params_id) = None ->
  accepts 1 (faults w) = true ->
  get_appointment params_id w
  = (inr (match rows_with_id (db w) (parseInt10 params_id) with
          | [] => Sent 404 (message "Appointment not found")
          | r :: _ => Sent 200 (appointment_details_json r)
          end), after_call w).
Proof.
  intros Hp Ha. unfold get_appointment.
  destruct (select_appointment_answered (parseInt10 params_id) 0 w Hp Ha) as [E _].
  rewrite (bind_returns _ _ _ _ _ E). now destruct (rows_with_id _ _).
Qed.






Lemma unselected_after_delete (l : list Appointment.row) p :
  filter (fun r => id_is p (Appointment.id r))
    (filter (fun r => negb (id_is p (Appointment.id r))) l) = [].
Proof.
  induction l as [|r l IH]; [reflexivity|]. cbn.
  destruct (id_is p (Appointment.id r)) eqn:E; cbn; [assumption|].
  now rewrite E.
Qed.

End Appointments.





Section UpdateFrame.

Variable d0 : DB.
Variable params_id : string.
Variable body : jsval.

Lemma put_appointment_rewrites_selected :
  triple (eq d0) (put_appointment params_id body)
    (fun _ => only_selected_rewritten (parseInt10 params_id) d0)
    (only_selected_rewritten (parseInt10 params_id) d0).
Proof.
  assert (Hsame : forall d, d0 = d ->
                            only_selected_rewritten (parseInt10 params_id) d0 d)
    by (intros d <-; repeat split; now left).
  unfold put_appointment, Sql.select_appointment.
  eapply triple_bind; [apply checked_keeps; [intros ? <-; reflexivity|auto]|].
  intros [|appt rest]; [apply triple_ret; auto|].
  eapply triple_bind;
    [apply (submitted_and_invalid_keeps (eq d0)); auto|].
  intros [|]; [apply triple_ret; auto|].
  eapply triple_bind;
    [apply (submitted_and_invalid_keeps (eq d0)); auto|].
  intros [|]; [apply triple_ret; auto|].
  eapply triple_bind; [apply isSlotTaken_keeps; auto|].
  intros taken. destruct (taken && _); [apply triple_ret; auto|].
  eapply triple_bind
    with (Q := fun _ => only_selected_rewritten (parseInt10 params_id) d0).
  - unfold Sql.update_appointment. apply triple_checked_call; [|auto].
    intros d <- _. cbn. repeat split. right. do 3 eexists. reflexivity.
  - intros ?. apply triple_ret. auto.
Qed.

End UpdateFrame.

Lemma rewritten_keeps_identity p sd st rs l :
  map Appointment.id (rewritten p sd st rs l) = map Appointment.id l
  /\ map Appointment.patient_id (rewritten p sd st rs l)
     = map Appointment.patient_id l
  /\ forall r, In r l -> id_is p (Appointment.id r) = false ->
               In r (rewritten p sd st rs l).
Proof.
  unfold rewritten. repeat split.
  - rewrite map_map. apply map_ext. intros r.
    now destruct (id_is p (Appointment.id r)).
  - rewrite map_map. apply map_ext. intros r.
    now destruct (id_is p (Appointment.id r)).
  - intros r Hr Hn. apply in_map_iff. exists r. split; [|assumption].
    now rewrite Hn.
Qed.

(** X10: whatever an update request holds and however it ends, it
    changes no identity and no patient reference, adds and removes no
    row, leaves every row of another identity as it was, and leaves the
    patient table and both counters alone. *)
Theorem update_touches_only_its_row (params_id : string) (body : jsval) (w : World) :
  let d := db w in
  let d' := db (snd (put_appointment params_id body w)) in
  map Appointment.id (appointments d') = map Appointment.id (appointments d)
  /\ map Appointment.patient_id (appointments d')
     = map Appointment.patient_id (appointments d)
  /\ (forall r, In r (appointments d) ->
                id_is (parseInt10 params_id) (Appointment.id r) = false ->
                In r (appointments d'))
  /\ patients d' = patients d
  /\ next_patient_id d' = next_patient_id d
  /\ next_appointment_id d' = next_appointment_id d.
Proof.
  cbv zeta.
  pose proof (put_appointment_rewrites_selected (db w) params_id body w eq_refl) as H.
  assert (Hf : only_selected_rewritten (parseInt10 params_id) (db w)
                 (db (snd (put_appointment params_id body w))))
    by (destruct (put_appointment params_id body w) as [[e|a] w']; exact H).
  destruct Hf as (Hp & Hn & Hn' & [Ha|(sd & st & rs & Ha)]); rewrite Ha.
  - repeat split; auto.
  - destruct (rewritten_keeps_identity (parseInt10 params_id) sd st rs
                (appointments (db w))) as (H1 & H2 & H3).
    repeat split; auto.
Qed.



(** X12: deleting an appointment under a numeric identity. With the
    storage layer answering: an identity that selects no row is answered
    404 and the table is as it was; an identity on record is answered
    200 with that identity, the rows of every other identity stay in
    their order, and a fetch of the deleted identity is then answered
    404. *)
Theorem appointment_delete_then_fetch (params_id : string) (z : Z) (w : World) :
  parseInt10 params_id = Some z ->
  accepts 2 (faults w) = true ->
  let w' := snd (delete_appointment params_id w) in
  appointments (db w')
  = filter (fun r => negb (Appointment.id r =? z)) (appointments (db w))
  /\ fst (get_appointment params_id w')
     = inr (Sent 404 (message "Appointment not found"))
  /\ (rows_with_id (db w) (Some z) = [] ->
      fst (delete_appointment params_id w)
      = inr (Sent 404 (message "Appointment not found"))
      /\ appointments (db w') = appointments (db w))
  /\ (rows_with_id (db w) (Some z) <> [] ->
      fst (delete_appointment params_id w)
      = inr (Sent 200 (Obj [("AppointmentId", Num z);
                            ("Message", Str "Appointment deleted successfully")]))).
Proof.
  intros Hp Ha. cbv zeta.
  destruct (answered_twice _ _ Ha) as [Ha1 Ha2].
  rewrite delete_appointment_answered by (rewrite ?Hp; auto).
  rewrite Hp. cbn [fst snd db appointments id_is number_json].
  split; [reflexivity|]. split; [|split].
  - rewrite get_appointment_answered by (rewrite ?Hp; auto).
    cbn [fst]. rewrite Hp. unfold rows_with_id. cbn [db appointments].
    change (fun r => negb (Appointment.id r =? z))
      with (fun r => negb (id_is (Some z) (Appointment.id r))).
    now rewrite unselected_after_delete.
  - intros Hnone. rewrite Hnone. split; [reflexivity|].
    change (fun r => negb (Appointment.id r =? z))
      with (fun r => negb (id_is (Some z) (Appointment.id r))).
    apply none_selected_filter. unfold rows_with_id in Hnone. now rewrite Hnone.
  - intros Hsome. now destruct (rows_with_id (db w) (Some z)).
Qed.

(** X12 at two appointments, the first deleted. *)
Lemma appointment_delete_then_fetch_witness :
  let w := mkWorld (mkDB [Patient.mk 2 "Ann" None]
                         [Appointment.mk 1 2 "2025-08-20" "14:30:00" "checkup"
                            booked_at;
                          Appointment.mk 2 2 "2025-08-21" "09:00:00" "x-ray" booked_at]
                         3 3 clock_now)
                   [] [] in
  appointments (db (snd (delete_appointment "1" w)))
  = [Appointment.mk 2 2 "2025-08-21" "09:00:00" "x-ray" booked_at]
  /\ fst (get_appointment "1" (snd (delete_appointment "1" w)))
     = inr (Sent 404 (message "Appointment not found")).
Proof.
  cbv zeta.
  destruct (appointment_delete_then_fetch "1" 1
              (mkWorld (mkDB [Patient.mk 2 "Ann" None]
                             [Appointment.mk 1 2 "2025-08-20" "14:30:00" "checkup"
                                booked_at;
                              Appointment.mk 2 2 "2025-08-21" "09:00:00" "x-ray"
                                booked_at] 3 3 clock_now)
                       [] []) eq_refl eq_refl) as (H1 & H2 & _).
  split; [exact H1|exact H2].
Defined.

(** X13: the update handler checks in the order lookup, date, time.
    For a record on file and the storage layer answering the lookup: a
    submitted (truthy) date the validator rejects is answered 400 for
    the date whatever the time is; with the date passing, a submitted
    time the validator rejects is answered 400 for the time; in both
    cases only the lookup reached the storage layer and the tables are as
    they were. *)
Theorem update_rejects_malformed_fields
  (params_id : string) (body : jsval) (w : World)
  (appt : Appointment.row) (rest : list Appointment.row) :
  accepts 1 (faults w) = true ->
  rows_with_id (db w) (parseInt10 params_id) = appt :: rest ->
  (truthy (field "AppointmentDate" body) = true ->
   isValidDate (field "AppointmentDate" body) = inr false ->
   put_appointment params_id body w
   = (inr (Sent 400 (message date_message)), after_call w))
  /\ (passes_update_check isValidDate (field "AppointmentDate" body) ->
      truthy (field "AppointmentTime" body) = true ->
      isValidTime (field "AppointmentTime" body) = inr false ->
      put_appointment params_id body w
      = (inr (Sent 400 (message time_message)), after_call w)).
Proof.
  intros Ha Hlive.
  destruct (select_appointment_answered (parseInt10 params_id) 0 w
              (selects_a_number _ _ _ _ Hlive) Ha) as [E _].
  split.
  - intros Ht Hv. unfold put_appointment.
    rewrite (bind_returns _ _ _ _ _ E), Hlive.
    fold (field "AppointmentDate" body).
    unfold bind at 1, submitted_and_invalid. rewrite Ht.
    unfold bind, lift. now rewrite Hv.
  - intros Hd Ht Hv. unfold put_appointment.
    rewrite (bind_returns _ _ _ _ _ E), Hlive.
    fold (field "AppointmentDate" body). fold (field "AppointmentTime" body).
    rewrite (bind_returns _ _ _ _ _ (check_passed _ _ _ Hd)).
    unfold bind at 1, submitted_and_invalid. rewrite Ht.
    unfold bind, lift. now rewrite Hv.
Qed.

(** X13 at a slash-separated date sent with a malformed time. *)
Lemma update_rejects_malformed_fields_witness :
  let w := mkWorld (mkDB [Patient.mk 2 "Ann" None]
                         [Appointment.mk 1 2 "2025-08-20" "14:30:00" "checkup"
                            booked_at] 3 2 clock_now)
                   [] [] in
  put_appointment "1"
    (Obj [("AppointmentDate", Str "20/08/2025"); ("AppointmentTime", Str "2pm")]) w
  = (inr (Sent 400 (message date_message)), after_call w).
Proof.
  cbv zeta.
  destruct (update_rejects_malformed_fields "1"
              (Obj [("AppointmentDate", Str "20/08/2025");
                    ("AppointmentTime", Str "2pm")])
              (mkWorld (mkDB [Patient.mk 2 "Ann" None]
                             [Appointment.mk 1 2 "2025-08-20" "14:30:00" "checkup"
                                booked_at] 3 2 clock_now)
                       [] [])
              (Appointment.mk 1 2 "2025-08-20" "14:30:00" "checkup" booked_at) []
              eq_refl eq_refl) as [H _].
  apply H; reflexivity.
Defined.

(* ================================================================== *)
(** ** The two listings *)

Section Listings.

Context {X : Type} (key : X -> Z).

Lemma insert_by_permutation x l : Permutation (x :: l) (insert_by key x l).
Proof.
  induction l as [|y l IH]; cbn; [reflexivity|].
  destruct (key x <? key y); [reflexivity|].
  rewrite perm_swap. now constructor.
Qed.

Lemma order_by_permutation l : Permutation l (order_by key l).
Proof.
  unfold order_by. induction l as [|x l IH]; cbn; [constructor|].
  rewrite <- insert_by_permutation. now constructor.
Qed.

Lemma insert_by_sorted x l :
  Sorted (fun a b => key a <= key b) l ->
  Sorted (fun a b => key a <= key b) (insert_by key x l).
Proof.
  induction l as [|y l IH]; cbn; intros Hs.
  - repeat constructor.
  - destruct (Z.ltb_spec (key x) (key y)).
    + constructor; [assumption|]. constructor. lia.
    + inversion Hs as [|? ? Hl Hy]; subst. constructor; [now apply IH|].
      destruct l as [|z l]; cbn.
      * constructor. lia.
      * inversion Hy; subst.
        destruct (key x <? key z); constructor; lia.
Qed.

Lemma order_by_sorted l : Sorted (fun a b => key a <= key b) (order_by key l).
Proof.
  unfold order_by. induction l as [|x l IH]; cbn; [constructor|].
  now apply insert_by_sorted.
Qed.

End Listings.

(** X14: when the storage layer answers, the patient listing is
    answered 200 with every patient on record exactly once, in ascending
    identity, and the appointment listing with every appointment exactly
    once, in ascending patient reference; both leave the tables as they
    were. *)
Theorem listings_are_complete_and_ordered (w : World) :
  accepts 1 (faults w) = true ->
  (exists rows,
      fst (get_patients w) = inr (Sent 200 (Arr (map patient_json rows)))
      /\ Permutation (patients (db w)) rows
      /\ Sorted (fun a b => Patient.id a <= Patient.id b) rows)
  /\ (exists rows,
        fst (get_appointments w) = inr (Sent 200 (Arr (map appointment_json rows)))
        /\ Permutation (appointments (db w)) rows
        /\ Sorted (fun a b => Appointment.patient_id a <= Appointment.patient_id b)
             rows)
  /\ db (snd (get_patients w)) = db w
  /\ db (snd (get_appointments w)) = db w.
Proof.
  intros Ha.
  assert (Ep : get_patients w
               = (inr (Sent 200 (Arr (map patient_json
                                        (order_by Patient.id (patients (db w)))))),
                  mkWorld (db w) (tl (faults w))
                    (console w
                       ++ [Info "Patients fetched:"
                             (Arr (map patient_json
                                     (order_by Patient.id (patients (db w)))))]))).
  { unfold get_patients, Sql.select_patients. apply try_catch_returns.
    match goal with
    | |- bind (storage_call ?q) _ _ = _ =>
        destruct (storage_call_answered q 0 w Ha) as [E _]
    end.
    rewrite (bind_returns _ _ _ _ _ E). reflexivity. }
  assert (Eap : get_appointments w
                = (inr (Sent 200 (Arr (map appointment_json
                                         (order_by Appointment.patient_id
                                            (appointments (db w)))))),
                   mkWorld (db w) (tl (faults w))
                     (console w
                        ++ [Info "Appointments fetched:"
                              (Arr (map appointment_json
                                      (order_by Appointment.patient_id
                                         (appointments (db w)))))]))).
  { unfold get_appointments, Sql.select_appointments. apply try_catch_returns.
    match goal with
    | |- bind (storage_call ?q) _ _ = _ =>
        destruct (storage_call_answered q 0 w Ha) as [E _]
    end.
    rewrite (bind_returns _ _ _ _ _ E). reflexivity. }
  rewrite Ep, Eap. cbn [fst snd db].
  split; [|split; [|split; reflexivity]].
  - eexists. split; [reflexivity|]. split.
    + apply order_by_permutation.
    + apply order_by_sorted.
  - eexists. split; [reflexivity|]. split.
    + apply order_by_permutation.
    + apply order_by_sorted.
Qed.

(** X14 at three appointments stored out of patient order. *)
Lemma listings_are_complete_and_ordered_witness :
  let w := mkWorld (mkDB [Patient.mk 1 "John Doe" None; Patient.mk 2 "Ann" None;
                          Patient.mk 3 "Bob" None]
                          [Appointment.mk 1 3 "2025-08-20" "14:30:00" "a" booked_at;
                             Appointment.mk 2 1 "2025-08-20" "14:30:00" "b" booked_at;
                             Appointment.mk 3 2 "2025-08-20" "14:30:00" "c"
                               booked_at] 4 4 clock_now)
                   [] [] in
  exists rows,
    fst (get_appointments w) = inr (Sent 200 (Arr (map appointment_json rows)))
    /\ Permutation (appointments (db w)) rows
    /\ Sorted (fun a b => Appointment.patient_id a <= Appointment.patient_id b) rows.
Proof.
  cbv zeta.
  destruct (listings_are_complete_and_ordered
              (mkWorld (mkDB [Patient.mk 1 "John Doe" None; Patient.mk 2 "Ann" None;
                          Patient.mk 3 "Bob" None]
                          [Appointment.mk 1 3 "2025-08-20" "14:30:00" "a" booked_at;
                                 Appointment.mk 2 1 "2025-08-20" "14:30:00" "b"
                                   booked_at;
                                 Appointment.mk 3 2 "2025-08-20" "14:30:00" "c"
                                   booked_at] 4 4 clock_now)
                       [] []) eq_refl) as (_ & H & _).
  exact H.
Defined.

(* ================================================================== *)
(** ** Start-up *)

Lemma startup_leaves_appointments w :
  appointments (db (snd (startup w))) = appointments (db w).
Proof.
  assert (T : triple (fun d => appointments d = appointments (db w)) startup
                (fun _ d => appointments d = appointments (db w))
                (fun d => appointments d = appointments (db w)))
    by (open_handlers;
        keeps_with (fun d => appointments d = appointments (db w))
                   ltac:(solve [auto])).
  specialize (T w eq_refl). now destruct (startup w) as [[e|a] w'].
Qed.

(** X15: the start-up block never raises; when the storage layer
    answers it seeds the patient "John Doe" under the counter's identity
    into an empty patient table and leaves a non-empty one as it is, so a
    second run changes nothing; when the storage layer rejects its first
    call the error is written to the console and the tables are as they
    were. Appointments are never touched. *)
Theorem startup_seeds_once (w : World) :
  fst (startup w) = inr tt
  /\ appointments (db (snd (startup w))) = appointments (db w)
  /\ (accepts 5 (faults w) = true ->
      (patients (db w) = [] ->
       patients (db (snd (startup w)))
       = [Patient.mk (next_patient_id (db w)) "John Doe" (Some "123456789")])
      /\ (patients (db w) <> [] -> db (snd (startup w)) = db w))
  /\ (accepts 10 (faults w) = true ->
      db (snd (startup (snd (startup w)))) = db (snd (startup w)))
  /\ (forall msg,
        startup (failing msg w)
        = (inr tt, mkWorld (db w) (faults w)
                     (console w ++ [Failure "DB error:" (DbError msg)]))).
Proof.
  assert (Hraise : forall w0, fst (startup w0) = inr tt).
  { intros w0. unfold startup, try_catch.
    match goal with |- fst (match ?m with _ => _ end) = _ => destruct m as [[e|[]] w'] end;
      reflexivity. }
  assert (Happ : forall w0, appointments (db (snd (startup w0))) = appointments (db w0)).
  { intros w0.
    assert (T : triple (fun d => appointments d = appointments (db w0)) startup
                  (fun _ d => appointments d = appointments (db w0))
                  (fun d => appointments d = appointments (db w0)))
      by (open_handlers;
          keeps_with (fun d => appointments d = appointments (db w0))
                     ltac:(solve [auto])).
    specialize (T w0 eq_refl). now destruct (startup w0) as [[e|a] w']. }
  assert (Hrun : forall w0, accepts 5 (faults w0) = true ->
            snd (startup w0)
            = match patients (db w0) with
              | [] =>
                  mkWorld
                    (mkDB [Patient.mk (next_patient_id (db w0)) "John Doe"
                             (Some "123456789")]
                          (appointments (db w0)) (next_patient_id (db w0) + 1)
                          (next_appointment_id (db w0)) (clock (db w0)))
                    (tl (tl (tl (tl (tl (faults w0))))))
                    (console w0 ++ [Info "Seed patient added" Undefined]
                       ++ [Info "Tables ready and seed check complete" Undefined])
              | _ :: _ =>
                  mkWorld (db w0) (tl (tl (tl (tl (faults w0)))))
                    (console w0
                       ++ [Info "Tables ready and seed check complete" Undefined])
              end).
  { intros [d fs c] H. cbn [faults db console] in *.
    unfold startup, try_catch, bind, Sql.no_rows_touched, Sql.count_patients,
      Sql.insert_patient, storage_call, checked_call, console_log, ret.
    cbn [faults db console].
    destruct fs as [|[m|] fs]; [|discriminate|].
    { destruct d as [ps aps np na ck]; destruct ps; cbn; rewrite <- ?app_assoc;
        reflexivity. }
    destruct fs as [|[m|] fs]; [|discriminate|].
    { destruct d as [ps aps np na ck]; destruct ps; cbn; rewrite <- ?app_assoc;
        reflexivity. }
    destruct fs as [|[m|] fs]; [|discriminate|].
    { destruct d as [ps aps np na ck]; destruct ps; cbn; rewrite <- ?app_assoc;
        reflexivity. }
    destruct fs as [|[m|] fs]; [|discriminate|].
    { destruct d as [ps aps np na ck]; destruct ps; cbn; rewrite <- ?app_assoc;
        reflexivity. }
    destruct fs as [|[m|] fs]; [|discriminate|].
    { destruct d as [ps aps np na ck]; destruct ps; cbn; rewrite <- ?app_assoc;
        reflexivity. }
    destruct d as [ps aps np na ck]; destruct ps; cbn; rewrite <- ?app_assoc;
      reflexivity. }
  split; [apply Hraise|]. split; [apply Happ|]. split; [|split].
  - intros Ha. rewrite (Hrun w Ha). split.
    + intros ->. reflexivity.
    + intros Hne. destruct (patients (db w)); [contradiction|reflexivity].
  - intros Ha.
    assert (Ha5 : accepts 5 (faults w) = true) by (now do 5 apply accepts_less).
    pose proof (Hrun w Ha5) as E1.
    destruct (patients (db w)) eqn:Ep; rewrite E1.
    + rewrite Hrun by (cbn [faults]; now do 5 apply accepts_tl). reflexivity.
    + rewrite Hrun
        by (cbn [faults]; apply accepts_less; now do 4 apply accepts_tl).
      cbn [db]. now rewrite Ep.
  - intros msg. reflexivity.
Qed.

(** X15 on the empty database. *)
Lemma startup_seeds_once_witness :
  patients (db (snd (startup fresh))) = [Patient.mk 1 "John Doe" (Some "123456789")]
  /\ db (snd (startup (snd (startup fresh)))) = db (snd (startup fresh)).
Proof.
  destruct (startup_seeds_once fresh) as (_ & _ & H5 & H10 & _).
  split.
  - apply H5; reflexivity.
  - apply H10; reflexivity.
Defined.

(* ================================================================== *)
(** ** What every reachable table satisfies *)

Section Reasons.

Lemma merged_reason_present v current :
  current <> EmptyString -> sql_text (merged_reason v current) <> EmptyString.
Proof.
  intros Hc. unfold merged_reason, js_or.
  destruct v; cbn; try assumption.
  destruct (String.eqb_spec (trim s) EmptyString); cbn; assumption.
Qed.

Lemma given_reason_present v :
  reason_missing v = false -> sql_text (trimmed v) <> EmptyString.
Proof.
  unfold reason_missing. destruct v; cbn; try discriminate.
  intros H. apply orb_false_iff in H. destruct H as [_ H].
  apply negb_false_iff, negb_true_iff in H.
  now destruct (String.eqb_spec (trim s) EmptyString).
Qed.

Lemma post_appointments_keeps_reasons body :
  triple reasons_present (post_appointments body) (fun _ => reasons_present)
    reasons_present.
Proof.
  unfold post_appointments.
  destruct (_ || _); [apply triple_ret; auto|].
  eapply triple_bind with (Q := fun _ => reasons_present);
    [apply triple_lift; intros; destruct (isValidDate _); auto|].
  intros [|]; cbn [negb]; [|apply triple_ret; auto].
  eapply triple_bind with (Q := fun _ => reasons_present);
    [apply triple_lift; intros; destruct (isValidTime _); auto|].
  intros [|]; cbn [negb]; [|apply triple_ret; auto].
  destruct (_ || _) eqn:Hr; [apply triple_ret; auto|].
  eapply triple_bind; [apply ensurePatientExists_keeps; auto|].
  intros [|]; cbn [negb]; [|apply triple_ret; auto].
  eapply triple_bind; [apply isSlotTaken_keeps; auto|].
  intros [|]; [apply triple_ret; auto|].
  eapply triple_bind with (Q := fun _ => reasons_present);
    [|intros ?; apply triple_ret; auto].
  unfold Sql.insert_appointment. apply triple_checked_call; [|auto].
  intros d Hd _. cbn. unfold reasons_present in *. cbn.
  apply Forall_app. split; [assumption|]. repeat constructor. cbn.
  now apply given_reason_present.
Qed.

Lemma put_appointment_keeps_reasons i body :
  triple reasons_present (put_appointment i body) (fun _ => reasons_present)
    reasons_present.
Proof.
  unfold put_appointment.
  eapply triple_bind; [apply select_appointment_reports; auto|].
  intros [|appt rest]; [apply triple_ret; tauto|].
  eapply triple_bind; [apply submitted_and_invalid_keeps; tauto|].
  intros [|]; [apply triple_ret; tauto|].
  eapply triple_bind; [apply submitted_and_invalid_keeps; tauto|].
  intros [|]; [apply triple_ret; tauto|].
  eapply triple_bind; [apply isSlotTaken_keeps; tauto|].
  intros taken. destruct (taken && _); [apply triple_ret; tauto|].
  eapply triple_bind with (Q := fun _ => reasons_present);
    [|intros ?; apply triple_ret; auto].
  unfold Sql.update_appointment. apply triple_checked_call; [|tauto].
  intros d [Hd Hsel] _. symmetry in Hsel.
  destruct (selected_row _ _ _ _ Hsel) as [Hin _].
  unfold reasons_present in *. cbn. rewrite Forall_forall in *.
  intros r Hr. apply in_map_iff in Hr. destruct Hr as (r0 & <- & Hr0).
  destruct (id_is _ _); [cbn|now apply Hd].
  apply merged_reason_present. now apply Hd.
Qed.

Lemma delete_appointment_keeps_reasons i :
  triple reasons_present (delete_appointment i) (fun _ => reasons_present)
    reasons_present.
Proof.
  unfold delete_appointment, Sql.delete_appointment.
  eapply triple_bind with (Q := fun _ => reasons_present).
  - apply triple_checked_call; [|auto]. intros d Hd _. cbn.
    unfold reasons_present in *. cbn. rewrite Forall_forall in *.
    intros r Hr. apply filter_In in Hr. now apply Hd.
  - intros n. destruct (n =? 0)%nat; apply triple_ret; auto.
Qed.

Lemma handle_keeps_reasons r :
  triple reasons_present (handle r) (fun _ => reasons_present) reasons_present.
Proof.
  destruct r;
    try (cbn [handle];
         first [apply post_appointments_keeps_reasons
               |apply put_appointment_keeps_reasons
               |apply delete_appointment_keeps_reasons]);
    open_handlers; keeps_with reasons_present ltac:(solve [auto]).
Qed.

Lemma serve_keeps_reasons rs w :
  reasons_present (db w) -> reasons_present (db (serve rs w)).
Proof.
  revert w. induction rs as [|r rs IH]; intros w Hw; [exact Hw|].
  cbn [serve]. apply IH. pose proof (handle_keeps_reasons r w Hw) as H.
  destruct (handle r w) as [[e|a] w']; exact H.
Qed.

End Reasons.

Section References.

Lemma insert_patient_keeps_references d i n c :
  references_resolve d ->
  references_resolve
    (mkDB (patients d ++ [Patient.mk i n c]) (appointments d) (i + 1)
          (next_appointment_id d) (clock d)).
Proof.
  unfold references_resolve, known_patient. cbn [patients appointments].
  intros H. eapply Forall_impl; [|exact H]. cbn beta. intros a Ha.
  now rewrite existsb_app, Ha.
Qed.

Lemma update_patient_keeps_references d p n c :
  references_resolve d ->
  references_resolve
    (mkDB (map (fun r => if id_is p (Patient.id r)
                         then Patient.mk (Patient.id r) n c else r) (patients d))
          (appointments d) (next_patient_id d) (next_appointment_id d) (clock d)).
Proof.
  unfold references_resolve, known_patient. cbn [patients appointments].
  intros H. eapply Forall_impl; [|exact H]. cbn beta. intros a Ha.
  apply existsb_exists in Ha. destruct Ha as (r & Hr & Hid).
  apply existsb_exists.
  exists (if id_is p (Patient.id r) then Patient.mk (Patient.id r) n c else r).
  split; [|now destruct (id_is p (Patient.id r))].
  apply in_map_iff. now exists r.
Qed.

(** The foreign key at work: a patient the server agrees to delete has
    no appointment. *)
Lemma delete_patient_keeps_references d p :
  match nan_refused p with
  | Some e => Some e
  | None => if Sql.referenced d p then Some (DbError parent_message) else None
  end = None ->
  references_resolve d ->
  references_resolve
    (mkDB (filter (fun r => negb (id_is p (Patient.id r))) (patients d))
          (appointments d) (next_patient_id d) (next_appointment_id d) (clock d)).
Proof.
  destruct p as [z|]; [|discriminate]. cbn [nan_refused].
  destruct (Sql.referenced d (Some z)) eqn:Eref; [discriminate|]. intros _.
  unfold references_resolve, known_patient. cbn [patients appointments].
  rewrite !Forall_forall. intros H a Ha. specialize (H a Ha).
  apply existsb_exists in H. destruct H as (r & Hr & Hid).
  apply existsb_exists. exists r. split; [|assumption].
  apply filter_In. split; [assumption|]. cbn [id_is].
  destruct (Z.eqb_spec (Patient.id r) z) as [Hz|]; [|reflexivity]. exfalso.
  assert (Sql.referenced d (Some z) = true); [|congruence].
  unfold Sql.referenced. apply andb_true_iff. split; apply existsb_exists.
  - exists r. split; [assumption|]. cbn. now apply Z.eqb_eq.
  - exists a. split; [assumption|]. cbn. apply Z.eqb_eq in Hid. lia.
Qed.

Lemma insert_appointment_keeps_references d pid sd st rs :
  (if existsb (fun r => Patient.id r =? pid) (patients d)
   then None else Some (DbError child_message)) = None ->
  references_resolve d ->
  references_resolve
    (mkDB (patients d)
          (appointments d ++ [Appointment.mk (next_appointment_id d) pid sd st rs
                                (clock d)])
          (next_patient_id d) (next_appointment_id d + 1) (clock d)).
Proof.
  destruct (existsb _ (patients d)) eqn:Ek; [|discriminate]. intros _.
  unfold references_resolve, known_patient. cbn [patients appointments].
  intros H. apply Forall_app. split; [exact H|]. now repeat constructor.
Qed.

Lemma update_appointment_keeps_references d p sd st rs :
  references_resolve d ->
  references_resolve
    (mkDB (patients d) (rewritten p sd st rs (appointments d))
          (next_patient_id d) (next_appointment_id d) (clock d)).
Proof.
  unfold references_resolve, known_patient, rewritten.
  cbn [patients appointments]. rewrite !Forall_forall. intros H a Ha.
  apply in_map_iff in Ha. destruct Ha as (a0 & <- & Ha0).
  specialize (H a0 Ha0). now destruct (id_is p (Appointment.id a0)).
Qed.

Lemma delete_appointment_keeps_references d (f : Appointment.row -> bool) :
  references_resolve d ->
  references_resolve
    (mkDB (patients d) (filter f (appointments d))
          (next_patient_id d) (next_appointment_id d) (clock d)).
Proof.
  unfold references_resolve, known_patient. cbn [patients appointments].
  rewrite !Forall_forall. intros H a Ha. apply filter_In in Ha. now apply H.
Qed.

Lemma handle_keeps_references r :
  triple references_resolve (handle r) (fun _ => references_resolve)
    references_resolve.
Proof.
  destruct r; open_handlers;
    keeps_with references_resolve
      ltac:(intros;
            first [ assumption
                  | apply insert_patient_keeps_references; assumption
                  | apply update_patient_keeps_references; assumption
                  | apply delete_patient_keeps_references; assumption
                  | apply insert_appointment_keeps_references; assumption
                  | apply update_appointment_keeps_references; assumption
                  | apply delete_appointment_keeps_references; assumption ]).
Qed.

Lemma serve_keeps_references rs w :
  references_resolve (db w) -> references_resolve (db (serve rs w)).
Proof.
  revert w. induction rs as [|r rs IH]; intros w Hw; [exact Hw|].
  cbn [serve]. apply IH. pose proof (handle_keeps_references r w Hw) as H.
  destruct (handle r w) as [[e|a] w']; exact H.
Qed.

End References.

(** X16: start-up on a database without appointments followed by any
    sequence of requests leaves tables in which appointment identities
    are distinct and below the counter, every stored date is a day in the
    validated syntax and every stored time the cell [HH:MM:00] of a time
    in the validated syntax, every stored reason is non-empty, and every
    appointment refers to a patient on record. *)
Theorem reachable_tables_are_well_formed (rs : list request) (w : World) :
  appointments (db w) = [] ->
  let d := db (serve rs (snd (startup w))) in
  ids_distinct d /\ slots_well_formed d /\ reasons_present d
  /\ references_resolve d.
Proof.
  intros Hw. cbv zeta.
  pose proof (startup_leaves_appointments w) as Happ.
  rewrite Hw in Happ.
  pose proof (serve_keeps rs _ (no_appointments_consistent _ Happ)) as (Hi & _ & Hs).
  split; [exact Hi|]. split; [exact Hs|]. split.
  - apply serve_keeps_reasons. unfold reasons_present. rewrite Happ. constructor.
  - apply serve_keeps_references. unfold references_resolve. rewrite Happ.
    constructor.
Qed.

(** X16 after a create, an update with a blank reason and an attempt to
    delete the patient. *)
Lemma reachable_tables_are_well_formed_witness :
  let d := db (serve
                 [POST_appointments
                    (Obj [("PatientId", Num 1); ("AppointmentDate", Str "2025-08-20");
                          ("AppointmentTime", Str "14:30"); ("Reason", Str "checkup")]);
                  PUT_appointment "1" (Obj [("Reason", Str "   ")]);
                  DELETE_patient "1"]
                 (snd (startup fresh))) in
  ids_distinct d /\ slots_well_formed d /\ reasons_present d
  /\ references_resolve d.
Proof.
  apply (reachable_tables_are_well_formed
           [POST_appointments
              (Obj [("PatientId", Num 1); ("AppointmentDate", Str "2025-08-20");
                    ("AppointmentTime", Str "14:30"); ("Reason", Str "checkup")]);
            PUT_appointment "1" (Obj [("Reason", Str "   ")]);
            DELETE_patient "1"]
           fresh).
  reflexivity.
Defined.

(** ** Blank and missing fields *)

Section Blank.

Lemma blank_trims_to_empty s : all_chars is_space s = true -> trim s = EmptyString.
Proof.
  intros H. unfold trim.
  assert (E : trim_start s = EmptyString).
  { induction s as [|c s IH]; [reflexivity|]. cbn in *.
    apply andb_true_iff in H. destruct H as [-> H]. auto. }
  now rewrite E.
Qed.

Lemma no_text_is_invalid_name v : no_text v -> invalid_name v = true.
Proof.
  unfold invalid_name. intros [H|(s & -> & H)].
  - rewrite H. cbn. now rewrite orb_true_r.
  - cbn. rewrite (blank_trims_to_empty s H). cbn. apply orb_true_r.
Qed.



End Blank.

(** X17: creating a patient without a usable name. When the body is
    missing, or [name] is missing or not a string, or is a string of
    white space only, the request is answered 400 "Invalid name" and
    nothing reaches the storage layer. *)
Theorem create_patient_needs_a_name (body : jsval) (w : World) :
  no_text (field "name" body) ->
  post_patients body w = (inr (Sent 400 (message "Invalid name")), w).
Proof.
  intros H. apply no_text_is_invalid_name in H.
  unfold post_patients. fold (field "name" body).
  unfold invalid_name in H. now rewrite H.
Qed.

(** X17 at a name of blanks and a tab. *)
Lemma create_patient_needs_a_name_witness :
  post_patients (Obj [("name", Str "    "); ("contact", Str "555")]) fresh
  = (inr (Sent 400 (message "Invalid name")), fresh).
Proof.
  apply (create_patient_needs_a_name
           (Obj [("name", Str "    "); ("contact", Str "555")]) fresh).
  right. eexists. split; reflexivity.
Defined.

(** X18: updating a patient checks the identity first and then that
    both [name] and [contact] are present: for an object body, an
    identity that is not a positive number is answered 400 "Invalid
    PatientId" whatever the fields are, and with a valid identity a falsy
    [name] or [contact] is answered 400 "Name and contact are required";
    in both cases nothing reaches the storage layer. *)
Theorem update_patient_check_order
  (params_id : string) (fields : list (string * jsval)) (w : World) :
  (invalid_id (parseInt10 params_id) = true ->
   put_patient params_id (Obj fields) w
   = (inr (Sent 400 (message "Invalid PatientId")), w))
  /\ (invalid_id (parseInt10 params_id) = false ->
      truthy (lookup "name" fields) = false
      \/ truthy (lookup "contact" fields) = false ->
      put_patient params_id (Obj fields) w
      = (inr (Sent 400 (message "Name and contact are required")), w)).
Proof.
  split.
  - intros H. unfold put_patient, try_catch, bind. cbn [destructure ret].
    now rewrite H.
  - intros H Hf. unfold put_patient, try_catch, bind. cbn [destructure ret get].
    rewrite H.
    assert (E : negb (truthy (lookup "name" fields))
                || negb (truthy (lookup "contact" fields)) = true)
      by (destruct Hf as [-> | ->]; cbn; auto using orb_true_r).
    now rewrite E.
Qed.

(** X18 at a non-numeric identity with complete fields, and a valid
    identity with an empty contact. *)
Lemma update_patient_check_order_witness :
  put_patient "abc" (Obj [("name", Str "Ann"); ("contact", Str "555")]) fresh
  = (inr (Sent 400 (message "Invalid PatientId")), fresh)
  /\ put_patient "1" (Obj [("name", Str "Ann"); ("contact", Str EmptyString)]) fresh
     = (inr (Sent 400 (message "Name and contact are required")), fresh).
Proof.
  destruct (update_patient_check_order "abc"
              [("name", Str "Ann"); ("contact", Str "555")] fresh) as [H1 _].
  destruct (update_patient_check_order "1"
              [("name", Str "Ann"); ("contact", Str EmptyString)] fresh) as [_ H2].
  split.
  - apply H1. reflexivity.
  - apply H2; [reflexivity|right; reflexivity].
Defined.



(* ================================================================== *)
(** ** Identities that are not numbers, and values read back *)

Section Unchecked.

Variable params_id : string.
Variable w : World.

Lemma get_appointment_refused :
  parseInt10 params_id = None ->
  accepts 1 (faults w) = true ->
  get_appointment params_id w
  = (inl (DbError "Unknown column 'NaN' in 'where clause'"), after_call w).
Proof.
  intros Hp Ha. unfold get_appointment. rewrite Hp.
  now rewrite (bind_raises _ _ _ _ _ (select_appointment_refused w Ha)).
Qed.

Lemma delete_appointment_refused :
  parseInt10 params_id = None ->
  accepts 1 (faults w) = true ->
  delete_appointment params_id w
  = (inl (DbError "Unknown column 'NaN' in 'where clause'"), after_call w).
Proof.
  intros Hp Ha. unfold delete_appointment, Sql.delete_appointment. rewrite Hp.
  match goal with
  | |- bind (checked_call ?r ?q) _ _ = _ =>
      pose proof (checked_call_refused r q _ w eq_refl Ha) as E
  end.
  now rewrite (bind_raises _ _ _ _ _ E).
Qed.

(** A submitted time the validator rejects, the date having passed. *)
Lemma update_rejects_time body appt rest :
  accepts 1 (faults w) = true ->
  rows_with_id (db w) (parseInt10 params_id) = appt :: rest ->
  passes_update_check isValidDate (field "AppointmentDate" body) ->
  truthy (field "AppointmentTime" body) = true ->
  isValidTime (field "AppointmentTime" body) = inr false ->
  put_appointment params_id body w
  = (inr (Sent 400 (message time_message)), after_call w).
Proof.
  intros Ha Hlive Hd Ht Hv.
  destruct (select_appointment_answered (parseInt10 params_id) 0 w
              (selects_a_number _ _ _ _ Hlive) Ha) as [E _].
  unfold put_appointment.
  rewrite (bind_returns _ _ _ _ _ E), Hlive.
  fold (field "AppointmentDate" body). fold (field "AppointmentTime" body).
  rewrite (bind_returns _ _ _ _ _ (check_passed _ _ _ Hd)).
  unfold bind at 1, submitted_and_invalid. rewrite Ht.
  unfold bind, lift. now rewrite Hv.
Qed.

End Unchecked.

(** X20: an identity that is not a number. The appointment routes hand
    it to the server as NaN: the statement is refused, and fetch, update
    and delete raise, answering nothing and leaving the tables as they
    were; the patient routes answer 400 "Invalid PatientId" on the same
    identity without a storage call. *)
Theorem nonnumeric_identity (params_id : string) (body : jsval) (w : World) :
  parseInt10 params_id = None ->
  accepts 1 (faults w) = true ->
  let refused := (inl (DbError "Unknown column 'NaN' in 'where clause'")
                  : error + response, after_call w) in
  get_appointment params_id w = refused
  /\ put_appointment params_id body w = refused
  /\ delete_appointment params_id w = refused
  /\ db (after_call w) = db w
  /\ get_patient params_id w = (inr (Sent 400 (message "Invalid PatientId")), w)
  /\ delete_patient params_id w = (inr (Sent 400 (message "Invalid PatientId")), w).
Proof.
  intros Hp Ha. cbv zeta.
  split; [now apply get_appointment_refused|].
  split; [now apply update_refused|].
  split; [now apply delete_appointment_refused|].
  split; [reflexivity|].
  unfold get_patient, delete_patient, try_catch. rewrite Hp. split; reflexivity.
Qed.

(** X20 at the identity "abc". *)
Lemma nonnumeric_identity_witness :
  let w := mkWorld (mkDB [Patient.mk 2 "Ann" None]
                         [Appointment.mk 1 2 "2025-08-20" "14:30:00" "checkup"
                            booked_at] 3 2 clock_now)
                   [] [] in
  get_appointment "abc" w
  = (inl (DbError "Unknown column 'NaN' in 'where clause'"), w)
  /\ get_patient "abc" w = (inr (Sent 400 (message "Invalid PatientId")), w).
Proof.
  cbv zeta.
  destruct (nonnumeric_identity "abc" (Obj [])
              (mkWorld (mkDB [Patient.mk 2 "Ann" None]
                             [Appointment.mk 1 2 "2025-08-20" "14:30:00" "checkup"
                                booked_at] 3 2 clock_now)
                       [] []) eq_refl eq_refl) as (H1 & _ & _ & _ & H2 & _).
  split; [exact H1|exact H2].
Defined.

(** X21: the time a fetch shows cannot be sent back. For a record on
    file whose stored time is one the engine wrote, an update that
    submits that time as it is read ([HH:MM:SS]), with a date that
    passes, is answered 400 for the time; only the lookup reached the
    storage layer and the tables are as they were. *)
Theorem fetched_time_is_rejected
  (params_id : string) (body : jsval) (w : World)
  (appt : Appointment.row) (rest : list Appointment.row) :
  accepts 1 (faults w) = true ->
  rows_with_id (db w) (parseInt10 params_id) = appt :: rest ->
  seconds_form (Appointment.appointment_time appt) ->
  passes_update_check isValidDate (field "AppointmentDate" body) ->
  field "AppointmentTime" body = Str (Appointment.appointment_time appt) ->
  fst (get_appointment params_id w)
  = inr (Sent 200 (appointment_details_json appt))
  /\ put_appointment params_id body w
     = (inr (Sent 400 (message time_message)), after_call w)
  /\ db (after_call w) = db w.
Proof.
  intros Ha Hlive Hs Hd Ht. split; [|split; [|reflexivity]].
  - rewrite get_appointment_answered;
      [|exact (selects_a_number _ _ _ _ Hlive)|assumption].
    now rewrite Hlive.
  - apply (update_rejects_time params_id w body appt rest); try assumption.
    + rewrite Ht. cbn. destruct Hs as (t & Htime & ->).
      apply time_re_format in Htime. destruct Htime as (?&?&?&?&->&_).
      reflexivity.
    + rewrite Ht. destruct (validators_on_strings (Appointment.appointment_time appt))
        as [_ E].
      now rewrite E, (seconds_form_rejected _ Hs).
Qed.

(** X21 at appointment 1, whose time a fetch shows as 14:30:00. *)
Lemma fetched_time_is_rejected_witness :
  let w := mkWorld (mkDB [Patient.mk 2 "Ann" None]
                         [Appointment.mk 1 2 "2025-08-20" "14:30:00" "checkup"
                            booked_at] 3 2 clock_now)
                   [] [] in
  fst (get_appointment "1" w)
  = inr (Sent 200 (Obj [("AppointmentId", Num 1); ("PatientId", Num 2);
                        ("AppointmentDate", DateObj "2025-08-20");
                        ("AppointmentTime", Str "14:30:00");
                        ("Reason", Str "checkup")]))
  /\ put_appointment "1" (Obj [("AppointmentTime", Str "14:30:00")]) w
     = (inr (Sent 400 (message time_message)), w).
Proof.
  cbv zeta.
  destruct (fetched_time_is_rejected "1" (Obj [("AppointmentTime", Str "14:30:00")])
              (mkWorld (mkDB [Patient.mk 2 "Ann" None]
                             [Appointment.mk 1 2 "2025-08-20" "14:30:00" "checkup"
                                booked_at] 3 2 clock_now)
                       [] [])
              (Appointment.mk 1 2 "2025-08-20" "14:30:00" "checkup" booked_at) [])
    as (H1 & H2 & _); try reflexivity.
  - exists "14:30". split; reflexivity.
  - left; reflexivity.
  - split; [exact H1|exact H2].
Defined.
